(** * d1-worker: the HTTP-to-SQL request handler of [src/index.ts]

    A shallow embedding of the worker's [fetch] handler together with its
    two helpers [isValidTableName] and [jsonResponse], and the properties
    of the specification checked against it.

    Conventions of the embedding.
    - A JavaScript string is a [string]; one [ascii] stands for one code
      unit, so the development covers strings whose code units are below
      256 (which includes every URL path, since [URL.pathname] is
      percent-encoded ASCII).
    - A JavaScript number is a [number]: a rational, negative zero, an
      infinity or NaN.  An integer read by [parseInt] is rounded to the
      nearest double, ties to even, and overflows to an infinity.
    - The value of [await request.json()] is a field of the request: the
      parsed value, or the error the parser threw.
    - The D1 binding is an oracle with one function per execution mode; a
      call is logged, so that "no database call" is a statement about the
      log.  [prepare(q).bind(...).all()] is one logged call. *)

From Stdlib Require Import List String Ascii Bool Arith ZArith QArith Lia.
From Stdlib Require Import DecimalString DecimalNat DecimalFacts.
Import ListNotations.
Local Close Scope Q_scope.
Local Open Scope nat_scope.
Local Open Scope list_scope.
Local Open Scope string_scope.

(** ** Strings *)

Module Str.

Definition slash : ascii := "/"%char.

Definition is_slash (c : ascii) : bool := Ascii.eqb c slash.

Fixpoint all_chars (p : ascii -> bool) (s : string) : bool :=
  match s with
  | EmptyString => true
  | String c rest => p c && all_chars p rest
  end.

Definition nonempty (s : string) : bool :=
  match s with EmptyString => false | String _ _ => true end.

(** [s.split('/')]: the pieces between the separators, and at least
    one piece. *)
Fixpoint split (s : string) : list string :=
  match s with
  | EmptyString => [EmptyString]
  | String c rest =>
      if is_slash c then EmptyString :: split rest
      else match split rest with
           | piece :: pieces => String c piece :: pieces
           | [] => [String c EmptyString]
           end
  end.

(** [parts.join(sep)]. *)
Fixpoint join (sep : string) (parts : list string) : string :=
  match parts with
  | [] => EmptyString
  | [p] => p
  | p :: rest => p ++ sep ++ join sep rest
  end.

(** What is left of [s] after the literal prefix [p], if [s] starts
    with it. *)
Fixpoint strip_prefix (p s : string) : option string :=
  match p, s with
  | EmptyString, _ => Some s
  | String a p', String b s' =>
      if Ascii.eqb a b then strip_prefix p' s' else None
  | String _ _, EmptyString => None
  end.

(** The longest prefix without a slash, and the rest: what a greedy
    [[^\/]*] consumes and leaves. *)
Fixpoint span_segment (s : string) : string * string :=
  match s with
  | EmptyString => (EmptyString, EmptyString)
  | String c rest =>
      if is_slash c then (EmptyString, s)
      else let (seg, tl) := span_segment rest in (String c seg, tl)
  end.

Definition not_slash (c : ascii) : bool := negb (is_slash c).

(** [[^\/]+] against a whole string. *)
Definition segment (s : string) : bool :=
  nonempty s && all_chars not_slash s.

(** The one-character strings of [s]: what spreading a string or
    [Object.values] of a string gives. *)
Fixpoint chars (s : string) : list string :=
  match s with
  | EmptyString => []
  | String c rest => String c EmptyString :: chars rest
  end.

(** Decimal numeral of an index, as in the property names of an array. *)
Definition of_nat (n : nat) : string :=
  NilEmpty.string_of_uint (Nat.to_uint n).

(** An element of an array that may be out of range, converted to a
    string the way a template literal or [RegExp.test] converts it. *)
Definition of_element (o : option string) : string :=
  match o with
  | Some s => s
  | None => "undefined"
  end.

End Str.

(** ** JavaScript values *)

#[local] Set Warnings "-register-all".

Inductive number : Type :=
| NaN
| Infinity (negative : bool)
| NegativeZero
| Finite (q : Q).

Inductive jsval : Type :=
| JUndefined
| JNull
| JBool (b : bool)
| JNum (n : number)
| JStr (s : string)
| JArr (items : list jsval)
| JObj (props : list (string * jsval)).

Module Js.

Definition of_Z (z : Z) : number := Finite (inject_Z z).

(** The Number value for a mathematical integer: the integer itself
    when it has at most 53 significant bits, otherwise the nearest
    multiple of the spacing of the doubles of its magnitude, a tie going
    to the even mantissa; from 2^1024 on, an infinity. *)
Definition of_integer (z : Z) : number :=
  let a := Z.abs z in
  let bits := (Z.log2 a + 1)%Z in
  if (bits <=? 53)%Z then of_Z z
  else
    let shift := (bits - 53)%Z in
    let q := (a / 2 ^ shift)%Z in
    let r := (a mod 2 ^ shift)%Z in
    let half := (2 ^ (shift - 1))%Z in
    let m := if (half <? r)%Z || ((r =? half)%Z && Z.odd q)
             then (q + 1)%Z else q in
    let v := (m * 2 ^ shift)%Z in
    if (2 ^ 1024 <=? v)%Z then Infinity (z <? 0)%Z
    else of_Z (Z.sgn z * v).
Arguments of_integer z : simpl never.

(** ToBoolean. *)
Definition truthy (v : jsval) : bool :=
  match v with
  | JUndefined | JNull => false
  | JBool b => b
  | JNum NaN => false
  | JNum NegativeZero => false
  | JNum (Infinity _) => true
  | JNum (Finite q) => negb (Qeq_bool q 0)
  | JStr s => Str.nonempty s
  | JArr _ => true
  | JObj _ => true
  end.

(** [Object.keys(v)] for a value that is neither [null] nor
    [undefined]: the own enumerable property names, in enumeration
    order.  An object carries its properties in that order; an array and
    a string have their indices; a number or a boolean has none.  On
    [null] and [undefined] the call throws, and the handler never
    reaches it with them: the test [!body] comes first. *)
Definition keys (v : jsval) : list string :=
  match v with
  | JObj props => map fst props
  | JArr items => map Str.of_nat (seq 0 (List.length items))
  | JStr s => map Str.of_nat (seq 0 (String.length s))
  | JUndefined | JNull | JBool _ | JNum _ => []
  end.

(** [Object.values(v)], under the same proviso. *)
Definition values (v : jsval) : list jsval :=
  match v with
  | JObj props => map snd props
  | JArr items => items
  | JStr s => map JStr (Str.chars s)
  | JUndefined | JNull | JBool _ | JNum _ => []
  end.

(** [v.name] for a value that is neither [null] nor [undefined], where
    [name] is not an index and not [length].  Only [query] and [params]
    are read this way, and only from parsed JSON, so strings, arrays and
    primitives have neither. *)
Fixpoint lookup (name : string) (props : list (string * jsval)) : jsval :=
  match props with
  | [] => JUndefined
  | (k, v) :: rest => if String.eqb k name then v else lookup name rest
  end.

Definition get (v : jsval) (name : string) : jsval :=
  match v with
  | JObj props => lookup name props
  | _ => JUndefined
  end.

(** [v.length] for a value that is neither [null] nor [undefined]. *)
Definition length_of (v : jsval) : jsval :=
  match v with
  | JStr s => JNum (of_Z (Z.of_nat (String.length s)))
  | JArr items => JNum (of_Z (Z.of_nat (List.length items)))
  | JObj props => lookup "length" props
  | _ => JUndefined
  end.

Definition nullish (v : jsval) : bool :=
  match v with JUndefined | JNull => true | _ => false end.

Definition is_object (v : jsval) : bool :=
  match v with JObj _ => true | _ => false end.

Definition number_positive (n : number) : bool :=
  match n with
  | NaN => false
  | NegativeZero => false
  | Infinity negative => negb negative
  | Finite q => negb (Qle_bool q 0)
  end.

End Js.

(** ** [parseInt] *)

Module ParseInt.

(** StrWhiteSpaceChar, among the code units below 256. *)
Definition is_space (c : ascii) : bool :=
  let n := nat_of_ascii c in
  (((9 <=? n) && (n <=? 13)) || (n =? 32) || (n =? 160))%nat.

Fixpoint trim_start (s : string) : string :=
  match s with
  | String c rest => if is_space c then trim_start rest else s
  | EmptyString => s
  end.

(** The value of a digit in the given radix, if it is one. *)
Definition digit (radix : nat) (c : ascii) : option nat :=
  let n := nat_of_ascii c in
  let v :=
    if ((48 <=? n) && (n <=? 57))%nat then Some (n - 48)
    else if ((97 <=? n) && (n <=? 122))%nat then Some (n - 87)
    else if ((65 <=? n) && (n <=? 90))%nat then Some (n - 55)
    else None in
  match v with
  | Some d => if (d <? radix)%nat then Some d else None
  | None => None
  end.

(** Reads the longest run of digits; [None] when there is none. *)
Fixpoint digits (radix : nat) (acc : option Z) (s : string) : option Z :=
  match s with
  | EmptyString => acc
  | String c rest =>
      match digit radix c with
      | Some d =>
          let a := match acc with Some a => a | None => 0%Z end in
          digits radix (Some (a * Z.of_nat radix + Z.of_nat d)%Z) rest
      | None => acc
      end
  end.

(** [parseInt(s)] with no radix argument: leading white space is
    skipped, a sign is taken, a [0x] prefix switches to radix 16, and
    the longest run of digits is read; the result is NaN when there is no
    digit, negative zero when the digits are zero under a minus sign,
    and otherwise the Number value for the signed integer. *)
Definition parseInt (s : string) : number :=
  let s1 := trim_start s in
  let (sign, s2) :=
    match s1 with
    | String "-" rest => ((-1)%Z, rest)
    | String "+" rest => (1%Z, rest)
    | _ => (1%Z, s1)
    end in
  let (radix, s3) :=
    match s2 with
    | String "0" (String "x" rest) => (16, rest)
    | String "0" (String "X" rest) => (16, rest)
    | _ => (10, s2)
    end in
  match digits radix None s3 with
  | Some z =>
      if (z =? 0)%Z
      then (if (sign <? 0)%Z then NegativeZero else Js.of_Z 0)
      else Js.of_integer (sign * z)
  | None => NaN
  end.

End ParseInt.

(** ** The database binding *)

(** [result.meta] of a [run()]: the two fields the handler reads. *)
Record RunMeta : Type := {
  last_row_id : Z;
  changes : Z
}.

(** What [run()] resolves to. *)
Record RunResult : Type := {
  run_success : bool;
  run_meta : RunMeta
}.

(** What [all()] resolves to. *)
Record AllResult : Type := {
  results : list jsval;
  all_meta : jsval
}.

(** An awaited call that resolves with a value or rejects with an
    [Error] carrying a message. *)
Inductive outcome (A : Type) : Type :=
| Ok (a : A)
| Throw (message : string).
Arguments Ok {A} a.
Arguments Throw {A} message.

(** One execution against the binding: the argument of [prepare], the
    arguments of [bind] (none when [bind] is not called) and the mode. *)
Inductive db_call : Type :=
| CallAll (sql : jsval) (binds : list jsval)
| CallFirst (sql : jsval) (binds : list jsval)
| CallRun (sql : jsval) (binds : list jsval).

(** [D1Database]. *)
Record D1Database : Type := {
  exec_all : jsval -> list jsval -> outcome AllResult;
  exec_first : jsval -> list jsval -> outcome (option (list (string * jsval)));
  exec_run : jsval -> list jsval -> outcome RunResult
}.

(** [interface Env]: the binding is its only member. *)
Record Env : Type := {
  DB : D1Database
}.

(** What the JavaScript engine decides and the repository does not: the
    number a string, an array or an object converts to when it is
    compared with [0], and the message texts of the two [TypeError]s the
    handler can provoke. *)
Record Engine : Type := {
  converts_above_zero : jsval -> bool;
  nullish_property_message : jsval -> string;
  not_iterable_message : string
}.

(** ** Requests and responses *)

Record Request : Type := {
  method : string;
  pathname : string;
  searchParams : list (string * string);
  headers : list (string * string);
  json : outcome jsval
}.

(** [interface JsonResponse], with the [meta] member two of the routes
    add; [None] is an absent member. *)
Record JsonResponse : Type := {
  success : bool;
  data : option jsval;
  error : option string;
  meta : option jsval
}.

Inductive Body : Type :=
| BodyNull
| BodyDocs
| BodyJson (envelope : JsonResponse).

Record Response : Type := {
  body : Body;
  status : Z;
  response_headers : list (string * string)
}.

Definition corsHeaders : list (string * string) :=
  [ ("Access-Control-Allow-Origin", "*");
    ("Access-Control-Allow-Methods", "GET, POST, PUT, DELETE, OPTIONS");
    ("Access-Control-Allow-Headers", "Content-Type") ].

(** [jsonResponse(data, corsHeaders, status)]. *)
Definition jsonResponse (d : JsonResponse) (cors : list (string * string))
  (st : Z) : Response :=
  {| body := BodyJson d;
     status := st;
     response_headers :=
       (cors ++ [("Content-Type", "application/json")])%list |}.

(** The object literals the handler passes to [jsonResponse]. *)
Definition failure (msg : string) : JsonResponse :=
  {| success := false; data := None; error := Some msg; meta := None |}.

Definition with_data (ok : bool) (d : jsval) : JsonResponse :=
  {| success := ok; data := Some d; error := None; meta := None |}.

Definition with_data_meta (d m : jsval) : JsonResponse :=
  {| success := true; data := Some d; error := None; meta := Some m |}.

(** [isValidTableName]: [/^[a-zA-Z_][a-zA-Z0-9_]*$/.test(tableName)]. *)
Module Ident.

Definition is_letter (c : ascii) : bool :=
  let n := nat_of_ascii c in
  (((97 <=? n) && (n <=? 122)) || ((65 <=? n) && (n <=? 90)))%nat.

Definition is_digit (c : ascii) : bool :=
  let n := nat_of_ascii c in ((48 <=? n) && (n <=? 57))%nat.

Definition is_underscore (c : ascii) : bool := Ascii.eqb c "_"%char.

Definition head_char (c : ascii) : bool := is_letter c || is_underscore c.

Definition tail_char (c : ascii) : bool :=
  is_letter c || is_digit c || is_underscore c.

End Ident.

Definition isValidTableName (tableName : string) : bool :=
  match tableName with
  | EmptyString => false
  | String c rest => Ident.head_char c && Str.all_chars Ident.tail_char rest
  end.

(** The alphabets of the specification, character by character. *)
Definition ascii_letters : list ascii :=
  list_ascii_of_string
    "abcdefghijklmnopqrstuvwxyzABCDEFGHIJKLMNOPQRSTUVWXYZ".

Definition decimal_digits : list ascii := list_ascii_of_string "0123456789".

Definition hex_digits : list ascii :=
  list_ascii_of_string "0123456789abcdefABCDEF".

(** The grammar in the words of the specification: non-empty, every
    character an ASCII letter, digit or underscore, the first one not a
    digit. *)
Definition spec_identifier (name : string) : Prop :=
  name <> EmptyString /\
  (forall c, In c (list_ascii_of_string name) ->
     In c ascii_letters \/ In c decimal_digits \/ c = "_"%char) /\
  (forall c rest, name = String c rest -> ~ In c decimal_digits).

(** ** The handler *)

(** Code that awaits the binding: it may throw, and it leaves a log of
    the calls it made. *)
Definition M (A : Type) : Type := list db_call -> outcome A * list db_call.

Definition ret {A : Type} (a : A) : M A := fun log => (Ok a, log).

Definition bind {A B : Type} (m : M A) (k : A -> M B) : M B :=
  fun log =>
    match m log with
    | (Ok a, log') => k a log'
    | (Throw msg, log') => (Throw msg, log')
    end.

Definition throw {A : Type} (msg : string) : M A := fun log => (Throw msg, log).

Definition await {A : Type} (o : outcome A) : M A := fun log => (o, log).

Notation "x <- m ;; k" := (bind m (fun x => k))
  (at level 61, m at next level, right associativity).

(** [path.match(/^\/tables\/[^\/]+$/)]. *)
Definition matches_collection (path : string) : bool :=
  match Str.strip_prefix "/tables/" path with
  | Some rest => Str.segment rest
  | None => false
  end.

(** [path.match(/^\/tables\/[^\/]+\/[^\/]+$/)]. *)
Definition matches_item (path : string) : bool :=
  match Str.strip_prefix "/tables/" path with
  | Some rest =>
      let (seg, tl) := Str.span_segment rest in
      Str.nonempty seg &&
      match tl with
      | String c id => Str.is_slash c && Str.segment id
      | EmptyString => false
      end
  | None => false
  end.

(** [parts[i]] of [path.split('/')], as the string it is used as. *)
Definition part (path : string) (i : nat) : string :=
  Str.of_element (nth_error (Str.split path) i).

(** [parts[i]] as a value handed to [bind]. *)
Definition part_value (path : string) (i : nat) : jsval :=
  match nth_error (Str.split path) i with
  | Some s => JStr s
  | None => JUndefined
  end.

(** [url.searchParams.get(name) || fallback]. *)
Fixpoint searchParams_get (name : string) (params : list (string * string))
  : option string :=
  match params with
  | [] => None
  | (k, v) :: rest =>
      if String.eqb k name then Some v else searchParams_get name rest
  end.

Definition param_or (name fallback : string)
  (params : list (string * string)) : string :=
  match searchParams_get name params with
  | Some v => if Str.nonempty v then v else fallback
  | None => fallback
  end.

(** The statements of the table routes. *)
Definition list_tables_sql : string :=
  "SELECT name FROM sqlite_master WHERE type='table' AND name NOT LIKE 'sqlite_%' AND name NOT LIKE '_cf_%'".

Definition select_page_sql (tableName : string) : string :=
  "SELECT * FROM " ++ tableName ++ " LIMIT ? OFFSET ?".

Definition select_one_sql (tableName : string) : string :=
  "SELECT * FROM " ++ tableName ++ " WHERE id = ?".

Definition insert_sql (tableName : string) (columns : list string) : string :=
  let placeholders := Str.join ", " (map (fun _ => "?") columns) in
  "INSERT INTO " ++ tableName ++ " (" ++ Str.join ", " columns
    ++ ") VALUES (" ++ placeholders ++ ")".

Definition update_sql (tableName : string) (columns : list string) : string :=
  let setClause := Str.join ", " (map (fun col => col ++ " = ?") columns) in
  "UPDATE " ++ tableName ++ " SET " ++ setClause ++ " WHERE id = ?".

Definition delete_sql (tableName : string) : string :=
  "DELETE FROM " ++ tableName ++ " WHERE id = ?".

(** [!body || Object.keys(body).length === 0]. *)
Definition body_missing (b : jsval) : bool :=
  negb (Js.truthy b) || (List.length (Js.keys b) =? 0)%nat.

Definition invalid_table : Response :=
  jsonResponse (failure "Invalid table name") corsHeaders 400.

Definition body_required : Response :=
  jsonResponse (failure "Request body is required") corsHeaders 400.

Definition record_not_found : Response :=
  jsonResponse (failure "Record not found") corsHeaders 404.

Definition route_not_found : Response :=
  jsonResponse (failure "Route not found") corsHeaders 404.

Definition query_required : Response :=
  jsonResponse (failure "Query is required") corsHeaders 400.

Definition changes_data (r : RunResult) : jsval :=
  JObj [("changes", JNum (Js.of_Z (changes (run_meta r))))].

Definition created_data (r : RunResult) : jsval :=
  JObj [("lastRowId", JNum (Js.of_Z (last_row_id (run_meta r))));
        ("changes", JNum (Js.of_Z (changes (run_meta r))))].

Section Handler.

Variable engine : Engine.
Variable env : Env.

(** The three ways a prepared statement is executed. *)
Definition db_all (sql : jsval) (binds : list jsval) : M AllResult :=
  fun log => (exec_all (DB env) sql binds, (log ++ [CallAll sql binds])%list).

Definition db_first (sql : jsval) (binds : list jsval)
  : M (option (list (string * jsval))) :=
  fun log =>
    (exec_first (DB env) sql binds, (log ++ [CallFirst sql binds])%list).

Definition db_run (sql : jsval) (binds : list jsval) : M RunResult :=
  fun log => (exec_run (DB env) sql binds, (log ++ [CallRun sql binds])%list).

(** [body.query], which throws on [null]. *)
Definition read_property (v : jsval) (name : string) : M jsval :=
  if Js.nullish v then throw (nullish_property_message engine v)
  else ret (Js.get v name).

(** [v > 0]. *)
Definition above_zero (v : jsval) : bool :=
  match v with
  | JUndefined | JNull => false
  | JBool b => b
  | JNum n => Js.number_positive n
  | JStr _ | JArr _ | JObj _ => converts_above_zero engine v
  end.

(** The arguments [...v] spreads into a call. *)
Definition spread (v : jsval) : M (list jsval) :=
  match v with
  | JArr items => ret items
  | JStr s => ret (map JStr (Str.chars s))
  | _ => throw (not_iterable_message engine)
  end.

(** [GET /tables]. *)
Definition list_tables : M Response :=
  result <- db_all (JStr list_tables_sql) [] ;;
  ret (jsonResponse (with_data true (JArr (results result))) corsHeaders 200).

(** [GET /tables/:tableName]. *)
Definition list_records (request : Request) : M Response :=
  let tableName := part (pathname request) 2 in
  if negb (isValidTableName tableName) then ret invalid_table
  else
    let limit := param_or "limit" "100" (searchParams request) in
    let offset := param_or "offset" "0" (searchParams request) in
    result <- db_all (JStr (select_page_sql tableName))
                [JNum (ParseInt.parseInt limit);
                 JNum (ParseInt.parseInt offset)] ;;
    ret (jsonResponse
           (with_data_meta (JArr (results result)) (all_meta result))
           corsHeaders 200).

(** [GET /tables/:tableName/:id]. *)
Definition get_record (request : Request) : M Response :=
  let tableName := part (pathname request) 2 in
  let id := part_value (pathname request) 3 in
  if negb (isValidTableName tableName) then ret invalid_table
  else
    result <- db_first (JStr (select_one_sql tableName)) [id] ;;
    match result with
    | None => ret record_not_found
    | Some row => ret (jsonResponse (with_data true (JObj row)) corsHeaders 200)
    end.

(** [POST /tables/:tableName]. *)
Definition create_record (request : Request) : M Response :=
  let tableName := part (pathname request) 2 in
  if negb (isValidTableName tableName) then ret invalid_table
  else
    body <- await (json request) ;;
    if body_missing body then ret body_required
    else
      let columns := Js.keys body in
      let values := Js.values body in
      result <- db_run (JStr (insert_sql tableName columns)) values ;;
      ret (jsonResponse
             (with_data (run_success result) (created_data result))
             corsHeaders 201).

(** [PUT /tables/:tableName/:id]. *)
Definition update_record (request : Request) : M Response :=
  let tableName := part (pathname request) 2 in
  let id := part_value (pathname request) 3 in
  if negb (isValidTableName tableName) then ret invalid_table
  else
    body <- await (json request) ;;
    if body_missing body then ret body_required
    else
      let columns := Js.keys body in
      let values := Js.values body in
      result <- db_run (JStr (update_sql tableName columns))
                  (values ++ [id])%list ;;
      if (changes (run_meta result) =? 0)%Z then ret record_not_found
      else
        ret (jsonResponse
               (with_data (run_success result) (changes_data result))
               corsHeaders 200).

(** [DELETE /tables/:tableName/:id]. *)
Definition delete_record (request : Request) : M Response :=
  let tableName := part (pathname request) 2 in
  let id := part_value (pathname request) 3 in
  if negb (isValidTableName tableName) then ret invalid_table
  else
    result <- db_run (JStr (delete_sql tableName)) [id] ;;
    if (changes (run_meta result) =? 0)%Z then ret record_not_found
    else
      ret (jsonResponse
             (with_data (run_success result) (changes_data result))
             corsHeaders 200).

(** [POST /query]. *)
Definition raw_query (request : Request) : M Response :=
  body <- await (json request) ;;
  query <- read_property body "query" ;;
  if negb (Js.truthy query) then ret query_required
  else
    let params := Js.get body "params" in
    binds <- (if Js.truthy params && above_zero (Js.length_of params)
              then spread params
              else ret []) ;;
    result <- db_all query binds ;;
    ret (jsonResponse
           (with_data_meta (JArr (results result)) (all_meta result))
           corsHeaders 200).

(** [GET /]. *)
Definition api_docs : Response :=
  {| body := BodyDocs;
     status := 200;
     response_headers := (corsHeaders ++ [("Content-Type", "text/html")])%list |}.

(** The body of the [try] block: the routes in the order they are
    tested. *)
Definition routes (request : Request) : M Response :=
  let path := pathname request in
  let m := method request in
  if (path =? "/tables") && (m =? "GET") then list_tables
  else if matches_collection path && (m =? "GET") then list_records request
  else if matches_item path && (m =? "GET") then get_record request
  else if matches_collection path && (m =? "POST") then create_record request
  else if matches_item path && (m =? "PUT") then update_record request
  else if matches_item path && (m =? "DELETE") then delete_record request
  else if (path =? "/query") && (m =? "POST") then raw_query request
  else if (path =? "/") && (m =? "GET") then ret api_docs
  else ret route_not_found.

(** [error.message || 'Internal server error']. *)
Definition error_text (message : string) : string :=
  if Str.nonempty message then message else "Internal server error".

Definition preflight : Response :=
  {| body := BodyNull; status := 200; response_headers := corsHeaders |}.

(** [fetch(request, env)]: the response, and the calls made to the
    binding on the way. *)
Definition fetch (request : Request) : Response * list db_call :=
  if method request =? "OPTIONS" then (preflight, [])
  else
    match routes request [] with
    | (Ok response, log) => (response, log)
    | (Throw message, log) =>
        (jsonResponse (failure (error_text message)) corsHeaders 500, log)
    end.

End Handler.

(** ** The route table *)

Inductive Route : Type :=
| Preflight
| ListTables
| ListRecords (table : string)
| GetRecord (table id : string)
| CreateRecord (table : string)
| UpdateRecord (table id : string)
| DeleteRecord (table id : string)
| RawQuery
| Docs.

Definition collection_path (table : string) : string := "/tables/" ++ table.

Definition item_path (table id : string) : string :=
  "/tables/" ++ table ++ "/" ++ id.

(** The table of section 4.2: which (method, path) pairs belong to which
    route.  A path parameter is a non-empty piece without a slash. *)
Inductive route_matches : string -> string -> Route -> Prop :=
| RM_preflight path :
    route_matches "OPTIONS" path Preflight
| RM_docs :
    route_matches "GET" "/" Docs
| RM_tables :
    route_matches "GET" "/tables" ListTables
| RM_list table :
    Str.segment table = true ->
    route_matches "GET" (collection_path table) (ListRecords table)
| RM_get table id :
    Str.segment table = true -> Str.segment id = true ->
    route_matches "GET" (item_path table id) (GetRecord table id)
| RM_create table :
    Str.segment table = true ->
    route_matches "POST" (collection_path table) (CreateRecord table)
| RM_update table id :
    Str.segment table = true -> Str.segment id = true ->
    route_matches "PUT" (item_path table id) (UpdateRecord table id)
| RM_delete table id :
    Str.segment table = true -> Str.segment id = true ->
    route_matches "DELETE" (item_path table id) (DeleteRecord table id)
| RM_query :
    route_matches "POST" "/query" RawQuery.

(** The table-name parameter of a route, for the routes that have one. *)
Definition table_of (r : Route) : option string :=
  match r with
  | ListRecords t | GetRecord t _ | CreateRecord t
  | UpdateRecord t _ | DeleteRecord t _ => Some t
  | Preflight | ListTables | RawQuery | Docs => None
  end.

(** The routes that read a request body into a statement. *)
Definition writes_body (r : Route) : bool :=
  match r with
  | CreateRecord _ | UpdateRecord _ _ => true
  | _ => false
  end.

(** The conditions of [fetch], read as a router: the first route whose
    test succeeds. *)
Definition route_of (m path : string) : option Route :=
  if m =? "OPTIONS" then Some Preflight
  else if (path =? "/tables") && (m =? "GET") then Some ListTables
  else if matches_collection path && (m =? "GET")
       then Some (ListRecords (part path 2))
  else if matches_item path && (m =? "GET")
       then Some (GetRecord (part path 2) (part path 3))
  else if matches_collection path && (m =? "POST")
       then Some (CreateRecord (part path 2))
  else if matches_item path && (m =? "PUT")
       then Some (UpdateRecord (part path 2) (part path 3))
  else if matches_item path && (m =? "DELETE")
       then Some (DeleteRecord (part path 2) (part path 3))
  else if (path =? "/query") && (m =? "POST") then Some RawQuery
  else if (path =? "/") && (m =? "GET") then Some Docs
  else None.

(** What [fetch] does once the route is known. *)
Definition guarded (m : M Response) : Response * list db_call :=
  match m [] with
  | (Ok response, log) => (response, log)
  | (Throw message, log) =>
      (jsonResponse (failure (error_text message)) corsHeaders 500, log)
  end.

Definition serve (engine : Engine) (env : Env) (r : Route)
  (request : Request) : Response * list db_call :=
  match r with
  | Preflight => (preflight, [])
  | ListTables => guarded (list_tables env)
  | ListRecords _ => guarded (list_records env request)
  | GetRecord _ _ => guarded (get_record env request)
  | CreateRecord _ => guarded (create_record env request)
  | UpdateRecord _ _ => guarded (update_record env request)
  | DeleteRecord _ _ => guarded (delete_record env request)
  | RawQuery => guarded (raw_query engine env request)
  | Docs => (api_docs, [])
  end.

(** ** The response envelope *)

(** The invariant of section 3. *)
Definition envelope_ok (j : JsonResponse) : Prop :=
  (success j = false -> error j <> None /\ data j = None) /\
  (success j = true -> error j = None).

Definition response_ok (r : Response) : Prop :=
  match body r with
  | BodyJson j => envelope_ok j
  | BodyNull | BodyDocs => True
  end.

(** What the binding answered to a logged call: the message it threw, if
    it threw. *)
Definition call_error (env : Env) (c : db_call) : option string :=
  match c with
  | CallAll sql binds =>
      match exec_all (DB env) sql binds with
      | Throw msg => Some msg
      | Ok _ => None
      end
  | CallFirst sql binds =>
      match exec_first (DB env) sql binds with
      | Throw msg => Some msg
      | Ok _ => None
      end
  | CallRun sql binds =>
      match exec_run (DB env) sql binds with
      | Throw msg => Some msg
      | Ok _ => None
      end
  end.

(** Every [run()] among the logged calls resolved with [success: true]
    (or threw). *)
Definition runs_report_success (env : Env) (log : list db_call) : bool :=
  forallb
    (fun c =>
       match c with
       | CallRun sql binds =>
           match exec_run (DB env) sql binds with
           | Ok r => run_success r
           | Throw _ => true
           end
       | CallAll _ _ | CallFirst _ _ => true
       end)
    log.

(** A body that is a non-empty string or a non-empty array: it has index
    properties. *)
Definition has_indices (b : jsval) : bool :=
  match b with
  | JStr (String _ _) => true
  | JArr (_ :: _) => true
  | _ => false
  end.

(** The statement text a writing route builds from its columns. *)
Definition write_sql (r : Route) (columns : list string) : string :=
  match r with
  | CreateRecord t => insert_sql t columns
  | UpdateRecord t _ => update_sql t columns
  | _ => EmptyString
  end.

(** The bind arguments a writing route passes. *)
Definition write_binds (r : Route) (values : list jsval) : list jsval :=
  match r with
  | UpdateRecord _ id => (values ++ [JStr id])%list
  | _ => values
  end.

(** Why a request is answered 404, with the error text. *)
Inductive not_found_cause (env : Env) (request : Request) : string -> Prop :=
| NF_route :
    (forall r, ~ route_matches (method request) (pathname request) r) ->
    not_found_cause env request "Route not found"
| NF_get table id :
    route_matches (method request) (pathname request) (GetRecord table id) ->
    isValidTableName table = true ->
    exec_first (DB env) (JStr (select_one_sql table)) [JStr id] = Ok None ->
    not_found_cause env request "Record not found"
| NF_update table id b r :
    route_matches (method request) (pathname request) (UpdateRecord table id) ->
    isValidTableName table = true ->
    json request = Ok b ->
    body_missing b = false ->
    exec_run (DB env) (JStr (update_sql table (Js.keys b)))
      (Js.values b ++ [JStr id])%list = Ok r ->
    changes (run_meta r) = 0%Z ->
    not_found_cause env request "Record not found"
| NF_delete table id r :
    route_matches (method request) (pathname request) (DeleteRecord table id) ->
    isValidTableName table = true ->
    exec_run (DB env) (JStr (delete_sql table)) [JStr id] = Ok r ->
    changes (run_meta r) = 0%Z ->
    not_found_cause env request "Record not found".

(** ** Sample engines, bindings and requests *)

Module Sample.

Definition engine : Engine :=
  {| converts_above_zero := fun _ => false;
     nullish_property_message :=
       fun _ => "Cannot read properties of null (reading 'query')";
     not_iterable_message := "object is not iterable" |}.

Definition meta_one : RunMeta := {| last_row_id := 7; changes := 1 |}.

(** A binding over an empty table that accepts every write. *)
Definition db : D1Database :=
  {| exec_all := fun _ _ => Ok {| results := []; all_meta := JObj [] |};
     exec_first := fun _ _ => Ok None;
     exec_run := fun _ _ => Ok {| run_success := true; run_meta := meta_one |} |}.

(** A binding whose every execution fails with the given message. *)
Definition failing_db (message : string) : D1Database :=
  {| exec_all := fun _ _ => Throw message;
     exec_first := fun _ _ => Throw message;
     exec_run := fun _ _ => Throw message |}.

(** A binding whose [run()] resolves with [success: false]. *)
Definition unsuccessful_db : D1Database :=
  {| exec_all := exec_all db;
     exec_first := exec_first db;
     exec_run := fun _ _ => Ok {| run_success := false; run_meta := meta_one |} |}.

Definition env : Env := {| DB := db |}.

Definition request (m path : string) (b : outcome jsval) : Request :=
  {| method := m;
     pathname := path;
     searchParams := [];
     headers := [];
     json := b |}.

Definition no_body : outcome jsval := Throw "Unexpected end of JSON input".

(** [GET /tables] without an [X-API-Key] header. *)
Definition anonymous_list : Request := request "GET" "/tables" no_body.

(** [GET /tables/users?limit=abc]. *)
Definition page_abc : Request :=
  {| method := "GET";
     pathname := "/tables/users";
     searchParams := [("limit", "abc")];
     headers := [("X-API-Key", "secret")];
     json := no_body |}.

(** [POST /tables/users] with a key that is not an identifier. *)
Definition hostile_column : string := "name) VALUES (?); DROP TABLE users; --".

Definition hostile_create : Request :=
  request "POST" "/tables/users" (Ok (JObj [(hostile_column, JStr "x")])).

(** [POST /tables/users] with no body at all. *)
Definition bodiless_create : Request := request "POST" "/tables/users" no_body.

(** [POST /tables/users] with the body [[1, 2]]. *)
Definition array_create : Request :=
  request "POST" "/tables/users"
    (Ok (JArr [JNum (Js.of_Z 1); JNum (Js.of_Z 2)])).

(** [PUT /tables/users/1] with the body [{"name": "A"}]. *)
Definition update_one : Request :=
  request "PUT" "/tables/users/1" (Ok (JObj [("name", JStr "A")])).

(** [GET /tables/users/1]. *)
Definition get_one : Request := request "GET" "/tables/users/1" no_body.

(** [POST /tables/1users] with no body. *)
Definition bad_create : Request := request "POST" "/tables/1users" no_body.

Definition failing_env (message : string) : Env :=
  {| DB := failing_db message |}.

Definition unsuccessful_env : Env := {| DB := unsuccessful_db |}.

End Sample.

(** ** Vocabulary of the statements *)

(** The request with another outcome of [request.json()]. *)
Definition with_json (request : Request) (b : outcome jsval) : Request :=
  {| method := method request;
     pathname := pathname request;
     searchParams := searchParams request;
     headers := headers request;
     json := b |}.

(** The request with other headers. *)
Definition with_headers (request : Request) (h : list (string * string))
  : Request :=
  {| method := method request;
     pathname := pathname request;
     searchParams := searchParams request;
     headers := h;
     json := json request |}.

(** The [error] member of a JSON response. *)
Definition response_error (r : Response) : option string :=
  match body r with
  | BodyJson j => error j
  | BodyNull | BodyDocs => None
  end.

(** The number bound for [limit] or [offset]: the default when the
    parameter is omitted or empty, otherwise whatever [parseInt] makes of
    the supplied text, which is NaN when no integer can be read. *)
Definition page_bound (default : Z) (supplied : option string) : number :=
  match supplied with
  | None => Js.of_Z default
  | Some EmptyString => Js.of_Z default
  | Some v => ParseInt.parseInt v
  end.

(** The number of occurrences of a character, used to count the
    placeholders of a statement. *)
Fixpoint count_char (c : ascii) (s : string) : nat :=
  match s with
  | EmptyString => 0
  | String a rest => (if Ascii.eqb a c then 1 else 0) + count_char c rest
  end.

(** The argument of [prepare] and the arguments of [bind] of a logged
    call. *)
Definition call_sql (c : db_call) : jsval :=
  match c with
  | CallAll sql _ | CallFirst sql _ | CallRun sql _ => sql
  end.

Definition call_binds (c : db_call) : list jsval :=
  match c with
  | CallAll _ binds | CallFirst _ binds | CallRun _ binds => binds
  end.

(** The [Content-Type] header that goes with each kind of body. *)
Definition content_type (b : Body) : list (string * string) :=
  match b with
  | BodyJson _ => [("Content-Type", "application/json")]
  | BodyDocs => [("Content-Type", "text/html")]
  | BodyNull => []
  end.

(** The path tests of [fetch], in the order they are made. *)
Definition path_tests (path : string) : list bool :=
  [ path =? "/tables";
    matches_collection path;
    matches_item path;
    path =? "/query";
    path =? "/" ].

(** What a request on an item or collection route is answered once its
    one statement has been executed. *)
Definition answer_of {A : Type} (o : outcome A) (c : db_call)
  (answer : A -> Response) : Response * list db_call :=
  match o with
  | Ok a => (answer a, [c])
  | Throw msg =>
      (jsonResponse (failure (error_text msg)) corsHeaders 500, [c])
  end.

(** The request with another query string. *)
Definition with_search (request : Request) (params : list (string * string))
  : Request :=
  {| method := method request;
     pathname := pathname request;
     searchParams := params;
     headers := headers request;
     json := json request |}.

(** Further sample requests. *)
Module Cases.

Definition users : list (string * jsval) :=
  [("name", JStr "A"); ("email", JStr "a@x.com")].

(** [POST /tables/users] with the body [{"name": "A", "email": "a@x.com"}]. *)
Definition create_user : Request :=
  Sample.request "POST" "/tables/users" (Ok (JObj users)).

(** [PUT /tables/users/7] with the same body. *)
Definition update_user : Request :=
  Sample.request "PUT" "/tables/users/7" (Ok (JObj users)).

(** [DELETE /tables/users/7]. *)
Definition delete_user : Request :=
  Sample.request "DELETE" "/tables/users/7" Sample.no_body.

(** [PATCH /tables/users/7]. *)
Definition patch_user : Request :=
  Sample.request "PATCH" "/tables/users/7" Sample.no_body.

(** [GET /tables/users/7/posts] and [GET /tables/users/]. *)
Definition deep : Request :=
  Sample.request "GET" "/tables/users/7/posts" Sample.no_body.

Definition trailing : Request :=
  Sample.request "GET" "/tables/users/" Sample.no_body.

(** [GET /tables/users?limit=10&offset=20]. *)
Definition page_10_20 : Request :=
  with_search (Sample.request "GET" "/tables/users" Sample.no_body)
    [("limit", "10"); ("offset", "20")].

(** [POST /query] with [{"query": "SELECT 1 as x"}], with
    [{"query": ..., "params": ["%@example.com"]}], with [{}] and with
    [null]. *)
Definition select_one : list (string * jsval) :=
  [("query", JStr "SELECT 1 as x")].

Definition select_like : list (string * jsval) :=
  [("query", JStr "SELECT * FROM users WHERE email LIKE ?");
   ("params", JArr [JStr "%@example.com"])].

Definition query_one : Request :=
  Sample.request "POST" "/query" (Ok (JObj select_one)).

Definition query_like : Request :=
  Sample.request "POST" "/query" (Ok (JObj select_like)).

Definition query_empty : Request :=
  Sample.request "POST" "/query" (Ok (JObj [])).

Definition query_null : Request :=
  Sample.request "POST" "/query" (Ok JNull).

End Cases.

(** The white space [parseInt] skips, among the code units below 256. *)
Definition white_space : list ascii :=
  map ascii_of_nat [9; 10; 11; 12; 13; 32; 160].

Definition sign_chars : list ascii := ["+"%char; "-"%char].

(** The string starts with a character of the set. *)
Definition starts_in (set : list ascii) (s : string) : Prop :=
  match s with
  | String c _ => In c set
  | EmptyString => False
  end.

(** No digit can be read at the start of the string: it does not start
    with a decimal digit, or it starts with [0x] or [0X] and no
    hexadecimal digit follows. *)
Definition no_digits (s : string) : Prop :=
  ~ starts_in decimal_digits s \/
  exists x rest,
    s = String "0" (String x rest) /\
    (x = "x"%char \/ x = "X"%char) /\
    ~ starts_in hex_digits rest.

(** The text fails to parse as an integer: after the leading white
    space and one optional sign no digit can be read. *)
Inductive reads_no_integer : string -> Prop :=
| RN_space c rest :
    In c white_space -> reads_no_integer rest ->
    reads_no_integer (String c rest)
| RN_signed c rest :
    In c sign_chars -> no_digits rest ->
    reads_no_integer (String c rest)
| RN_bare s :
    ~ starts_in white_space s -> ~ starts_in sign_chars s -> no_digits s ->
    reads_no_integer s.

(** The two prefix steps of [parseInt], named. *)
Definition sign_of (s1 : string) : Z * string :=
  match s1 with
  | String "-" rest => ((-1)%Z, rest)
  | String "+" rest => (1%Z, rest)
  | _ => (1%Z, s1)
  end.

Definition radix_of (s2 : string) : nat * string :=
  match s2 with
  | String "0" (String "x" rest) => (16, rest)
  | String "0" (String "X" rest) => (16, rest)
  | _ => (10, s2)
  end.

(** The bodies that are not objects and have no index: the ones a
    writing route refuses. *)
Inductive rejected_shape : jsval -> Prop :=
| RS_null : rejected_shape JNull
| RS_bool flag : rejected_shape (JBool flag)
| RS_number n : rejected_shape (JNum n)
| RS_empty_string : rejected_shape (JStr EmptyString)
| RS_empty_array : rejected_shape (JArr []).

(** The bodies that are not objects and have indices, with the column
    names and the values a writing route takes from them: the decimal
    indices 0, 1, ... of the elements of a non-empty array or of the
    characters of a non-empty string, and those elements or
    characters. *)
Inductive indexed_body : jsval -> list string -> list jsval -> Prop :=
| IB_array x items :
    indexed_body (JArr (x :: items))
      (map Str.of_nat (seq 0 (S (List.length items))))
      (x :: items)
| IB_string c s :
    indexed_body (JStr (String c s))
      (map Str.of_nat (seq 0 (S (String.length s))))
      (JStr (String c EmptyString) :: map JStr (Str.chars s)).

(** * Properties *)

(** ** The definitions on small inputs *)

Example split_item_path :
  Str.split "/tables/users/1" = [""; "tables"; "users"; "1"].
Proof. reflexivity. Qed.

Example split_trailing_slash :
  Str.split "/tables/users/" = [""; "tables"; "users"; ""].
Proof. reflexivity. Qed.

Example patterns_on_paths :
  matches_collection "/tables/users" = true /\
  matches_collection "/tables/" = false /\
  matches_collection "/tables/users/1" = false /\
  matches_item "/tables/users/1" = true /\
  matches_item "/tables/users/" = false /\
  matches_item "/tables/users/1/2" = false.
Proof. repeat split. Qed.

Example parseInt_samples :
  ParseInt.parseInt "100" = Js.of_Z 100 /\
  ParseInt.parseInt " -12px" = Js.of_Z (-12) /\
  ParseInt.parseInt "0x1f" = Js.of_Z 31 /\
  ParseInt.parseInt "1e3" = Js.of_Z 1 /\
  ParseInt.parseInt "abc" = NaN /\
  ParseInt.parseInt "" = NaN.
Proof. repeat split. Qed.

Example validator_samples :
  isValidTableName "users" = true /\
  isValidTableName "_t1" = true /\
  isValidTableName "1users" = false /\
  isValidTableName "users;--" = false /\
  isValidTableName "" = false.
Proof. repeat split. Qed.

Example statements_of_two_columns :
  insert_sql "users" ["name"; "email"]
  = "INSERT INTO users (name, email) VALUES (?, ?)" /\
  update_sql "users" ["name"; "email"]
  = "UPDATE users SET name = ?, email = ? WHERE id = ?".
Proof. split; reflexivity. Qed.

Example keys_of_non_objects :
  Js.keys (JArr [JNull; JNull]) = ["0"; "1"] /\
  Js.keys (JStr "ab") = ["0"; "1"] /\
  Js.keys (JNum (Js.of_Z 5)) = [] /\
  Js.keys (JBool true) = [].
Proof. repeat split. Qed.

(** ** Paths and their pieces *)

Section Paths.

Lemma segment_parts (s : string) :
  Str.segment s = true <-> s <> EmptyString /\ Str.all_chars Str.not_slash s = true.
Proof.
  unfold Str.segment. destruct s as [|c s]; simpl.
  - split; [discriminate | intros [H _]; now elim H].
  - split; [intros H; split; [discriminate | exact H] | intros [_ H]; exact H].
Qed.

Lemma strip_prefix_app (p s : string) : Str.strip_prefix p (p ++ s) = Some s.
Proof.
  induction p as [|a p IH]; simpl; [reflexivity|].
  now rewrite Ascii.eqb_refl.
Qed.

Lemma strip_prefix_inv (p s r : string) :
  Str.strip_prefix p s = Some r -> s = p ++ r.
Proof.
  revert s. induction p as [|a p IH]; intros s H; simpl in *.
  - now inversion H.
  - destruct s as [|b s]; [discriminate|].
    destruct (Ascii.eqb_spec a b) as [->|]; [|discriminate].
    now rewrite (IH _ H).
Qed.

Lemma all_chars_app (p : ascii -> bool) (s t : string) :
  Str.all_chars p (s ++ t) = Str.all_chars p s && Str.all_chars p t.
Proof.
  induction s as [|c s IH]; simpl; [reflexivity|].
  now rewrite IH, andb_assoc.
Qed.

Lemma split_free (s : string) :
  Str.all_chars Str.not_slash s = true -> Str.split s = [s].
Proof.
  induction s as [|c s IH]; simpl; [reflexivity|].
  unfold Str.not_slash at 1. intros H. apply andb_prop in H as [Hc Hs].
  apply negb_true_iff in Hc. rewrite Hc, (IH Hs). reflexivity.
Qed.

Lemma split_cons (seg rest : string) :
  Str.all_chars Str.not_slash seg = true ->
  Str.split (seg ++ String Str.slash rest) = seg :: Str.split rest.
Proof.
  induction seg as [|c seg IH]; simpl; intros H.
  - reflexivity.
  - unfold Str.not_slash at 1 in H. apply andb_prop in H as [Hc Hs].
    apply negb_true_iff in Hc. rewrite Hc, (IH Hs). reflexivity.
Qed.

Lemma span_free (seg : string) :
  Str.all_chars Str.not_slash seg = true ->
  Str.span_segment seg = (seg, EmptyString).
Proof.
  induction seg as [|c seg IH]; simpl; intros H; [reflexivity|].
  unfold Str.not_slash at 1 in H. apply andb_prop in H as [Hc Hs].
  apply negb_true_iff in Hc. rewrite Hc, (IH Hs). reflexivity.
Qed.

Lemma span_cons (seg rest : string) :
  Str.all_chars Str.not_slash seg = true ->
  Str.span_segment (seg ++ String Str.slash rest)
  = (seg, String Str.slash rest).
Proof.
  induction seg as [|c seg IH]; simpl; intros H; [reflexivity|].
  unfold Str.not_slash at 1 in H. apply andb_prop in H as [Hc Hs].
  apply negb_true_iff in Hc. rewrite Hc, (IH Hs). reflexivity.
Qed.

Lemma span_inv (s seg tl : string) :
  Str.span_segment s = (seg, tl) ->
  s = seg ++ tl /\ Str.all_chars Str.not_slash seg = true.
Proof.
  revert seg tl. induction s as [|c s IH]; simpl; intros seg tl H.
  - inversion H. now split.
  - destruct (Str.is_slash c) eqn:Hc.
    + inversion H. now split.
    + destruct (Str.span_segment s) as [seg' tl'] eqn:E.
      inversion H; subst. destruct (IH _ _ eq_refl) as [-> Hf].
      split; [reflexivity|]. simpl. unfold Str.not_slash at 1. now rewrite Hc.
Qed.

Lemma is_slash_eq (c : ascii) : Str.is_slash c = true -> c = Str.slash.
Proof. unfold Str.is_slash. apply Ascii.eqb_eq. Qed.

(** The two patterns, as equations on the path. *)
Lemma matches_collection_iff (path : string) :
  matches_collection path = true <->
  exists t, path = collection_path t /\ Str.segment t = true.
Proof.
  unfold matches_collection, collection_path. split.
  - destruct (Str.strip_prefix "/tables/" path) as [rest|] eqn:E;
      [|discriminate].
    intros H. exists rest. split; [now apply strip_prefix_inv | exact H].
  - intros (t & -> & H). now rewrite strip_prefix_app.
Qed.

Lemma matches_item_iff (path : string) :
  matches_item path = true <->
  exists t id,
    path = item_path t id /\ Str.segment t = true /\ Str.segment id = true.
Proof.
  unfold matches_item, item_path. split.
  - destruct (Str.strip_prefix "/tables/" path) as [rest|] eqn:E;
      [|discriminate].
    destruct (Str.span_segment rest) as [seg tl] eqn:S.
    intros H. apply andb_prop in H as [Hn H].
    destruct tl as [|c id]; [discriminate|].
    apply andb_prop in H as [Hc Hid]. apply is_slash_eq in Hc. subst c.
    apply span_inv in S as [-> Hf].
    exists seg, id. split; [now apply strip_prefix_inv|]. split; [|exact Hid].
    apply segment_parts. split; [|exact Hf].
    destruct seg; [discriminate | discriminate].
  - intros (t & id & -> & Ht & Hid).
    rewrite strip_prefix_app.
    apply segment_parts in Ht as [Hne Hf].
    change (t ++ "/" ++ id) with (t ++ String Str.slash id).
    rewrite (span_cons _ _ Hf).
    destruct t; [now elim Hne|]. simpl. exact Hid.
Qed.

(** The pieces [path.split('/')] gives on a matching path. *)
Lemma split_collection (t : string) :
  Str.segment t = true ->
  Str.split (collection_path t) = [EmptyString; "tables"; t].
Proof.
  intros H. apply segment_parts in H as [_ Hf].
  unfold collection_path.
  change ("/tables/" ++ t) with (String Str.slash ("tables" ++ String Str.slash t)).
  change (Str.split (String Str.slash ("tables" ++ String Str.slash t)))
    with (EmptyString :: Str.split ("tables" ++ String Str.slash t)).
  rewrite split_cons by reflexivity. now rewrite (split_free _ Hf).
Qed.

Lemma split_item (t id : string) :
  Str.segment t = true -> Str.segment id = true ->
  Str.split (item_path t id) = [EmptyString; "tables"; t; id].
Proof.
  intros Ht Hid.
  apply segment_parts in Ht as [_ Ht]. apply segment_parts in Hid as [_ Hid].
  unfold item_path.
  change ("/tables/" ++ t ++ "/" ++ id)
    with (String Str.slash ("tables" ++ String Str.slash (t ++ String Str.slash id))).
  change (Str.split (String Str.slash
            ("tables" ++ String Str.slash (t ++ String Str.slash id))))
    with (EmptyString
            :: Str.split ("tables" ++ String Str.slash (t ++ String Str.slash id))).
  rewrite split_cons by reflexivity.
  rewrite (split_cons _ _ Ht). now rewrite (split_free _ Hid).
Qed.

Lemma part_collection (t : string) :
  Str.segment t = true -> part (collection_path t) 2 = t.
Proof. intros H. unfold part. now rewrite (split_collection _ H). Qed.

Lemma part_item (t id : string) :
  Str.segment t = true -> Str.segment id = true ->
  part (item_path t id) 2 = t /\
  part (item_path t id) 3 = id /\
  part_value (item_path t id) 3 = JStr id.
Proof.
  intros Ht Hid. unfold part, part_value.
  rewrite (split_item _ _ Ht Hid). now repeat split.
Qed.

(** The patterns do not overlap. *)
Lemma collection_not_item (t : string) :
  Str.segment t = true -> matches_item (collection_path t) = false.
Proof.
  intros H. apply segment_parts in H as [_ Hf].
  unfold matches_item, collection_path.
  rewrite strip_prefix_app, (span_free _ Hf). apply andb_false_r.
Qed.

Lemma item_not_collection (t id : string) :
  matches_collection (item_path t id) = false.
Proof.
  unfold matches_collection, item_path, Str.segment.
  rewrite strip_prefix_app.
  change (t ++ "/" ++ id) with (t ++ String Str.slash id).
  rewrite all_chars_app. simpl.
  now rewrite andb_false_r, andb_false_r.
Qed.

End Paths.

(** ** The router *)

Section Router.

Lemma collection_is_not_tables (t : string) (lit : string) :
  lit = "/tables" \/ lit = "/query" \/ lit = "/" ->
  (collection_path t =? lit) = false.
Proof.
  intros [-> | [-> | ->]]; unfold collection_path; simpl;
    try reflexivity; now destruct t.
Qed.

Lemma item_is_not_tables (t id : string) (lit : string) :
  lit = "/tables" \/ lit = "/query" \/ lit = "/" ->
  (item_path t id =? lit) = false.
Proof.
  intros [-> | [-> | ->]]; unfold item_path; simpl;
    try reflexivity; now destruct t.
Qed.

Lemma matches_collection_intro (t : string) :
  Str.segment t = true -> matches_collection (collection_path t) = true.
Proof. intros H. apply matches_collection_iff. now exists t. Qed.

Lemma matches_item_intro (t id : string) :
  Str.segment t = true -> Str.segment id = true ->
  matches_item (item_path t id) = true.
Proof. intros Ht Hid. apply matches_item_iff. now exists t, id. Qed.

(** [fetch] is its router followed by the handler of the route. *)
Lemma fetch_route_of (engine : Engine) (env : Env) (request : Request) :
  fetch engine env request =
  match route_of (method request) (pathname request) with
  | Some r => serve engine env r request
  | None => (route_not_found, [])
  end.
Proof.
  unfold fetch, route_of, routes.
  destruct (method request =? "OPTIONS"); [reflexivity|].
  repeat match goal with
         | |- context [if ?c then _ else _] => destruct c; [reflexivity|]
         end.
  reflexivity.
Qed.

(** Every route the router picks is a row of the route table. *)
Lemma route_of_sound (m path : string) (r : Route) :
  route_of m path = Some r -> route_matches m path r.
Proof.
  unfold route_of.
  destruct (String.eqb_spec m "OPTIONS") as [->|_].
  { intros H; inversion H. constructor. }
  repeat match goal with
         | |- context [if ?a && ?b then _ else _] =>
             destruct (a && b) eqn:?
         end; intros H; inversion H; subst; clear H;
    match goal with
    | E : _ && _ = true |- _ => apply andb_prop in E as [Hp Hm]
    end;
    apply String.eqb_eq in Hm; subst m.
  - apply String.eqb_eq in Hp. subst. constructor.
  - apply matches_collection_iff in Hp as (t & -> & Ht).
    rewrite (part_collection _ Ht). now constructor.
  - apply matches_item_iff in Hp as (t & id & -> & Ht & Hid).
    destruct (part_item _ _ Ht Hid) as (-> & -> & _). now constructor.
  - apply matches_collection_iff in Hp as (t & -> & Ht).
    rewrite (part_collection _ Ht). now constructor.
  - apply matches_item_iff in Hp as (t & id & -> & Ht & Hid).
    destruct (part_item _ _ Ht Hid) as (-> & -> & _). now constructor.
  - apply matches_item_iff in Hp as (t & id & -> & Ht & Hid).
    destruct (part_item _ _ Ht Hid) as (-> & -> & _). now constructor.
  - apply String.eqb_eq in Hp. subst. constructor.
  - apply String.eqb_eq in Hp. subst. constructor.
Qed.

(** Every row of the route table is picked, and no other in its place:
    the patterns do not overlap. *)
Lemma route_of_complete (m path : string) (r : Route) :
  route_matches m path r -> route_of m path = Some r.
Proof.
  intros H. destruct H; unfold route_of; try reflexivity.
  - simpl (_ =? "OPTIONS").
    rewrite collection_is_not_tables by auto.
    rewrite (matches_collection_intro _ H). simpl.
    now rewrite (part_collection _ H).
  - simpl (_ =? "OPTIONS").
    rewrite item_is_not_tables by auto.
    rewrite item_not_collection, (matches_item_intro _ _ H H0). simpl.
    now destruct (part_item _ _ H H0) as (-> & -> & _).
  - simpl (_ =? "OPTIONS").
    rewrite collection_is_not_tables by auto.
    rewrite (matches_collection_intro _ H), (collection_not_item _ H). simpl.
    now rewrite (part_collection _ H).
  - simpl (_ =? "OPTIONS").
    rewrite item_is_not_tables by auto.
    rewrite item_not_collection, (matches_item_intro _ _ H H0). simpl.
    now destruct (part_item _ _ H H0) as (-> & -> & _).
  - simpl (_ =? "OPTIONS").
    rewrite item_is_not_tables by auto.
    rewrite item_not_collection, (matches_item_intro _ _ H H0). simpl.
    now destruct (part_item _ _ H H0) as (-> & -> & _).
Qed.

Lemma route_unique (m path : string) (r1 r2 : Route) :
  route_matches m path r1 -> route_matches m path r2 -> r1 = r2.
Proof.
  intros H1 H2. apply route_of_complete in H1, H2. congruence.
Qed.

Lemma no_route_iff (m path : string) :
  route_of m path = None <-> forall r, ~ route_matches m path r.
Proof.
  split.
  - intros H r Hr. apply route_of_complete in Hr. congruence.
  - intros H. destruct (route_of m path) as [r|] eqn:E; [|reflexivity].
    elim (H r). now apply route_of_sound.
Qed.

Lemma fetch_on_route (engine : Engine) (env : Env) (request : Request)
  (r : Route) :
  route_matches (method request) (pathname request) r ->
  fetch engine env request = serve engine env r request.
Proof.
  intros H. rewrite fetch_route_of. now rewrite (route_of_complete _ _ _ H).
Qed.

Lemma fetch_off_route (engine : Engine) (env : Env) (request : Request) :
  (forall r, ~ route_matches (method request) (pathname request) r) ->
  fetch engine env request = (route_not_found, []).
Proof.
  intros H. rewrite fetch_route_of.
  apply no_route_iff in H. now rewrite H.
Qed.

End Router.

(** ** The identifier validator *)

Section Identifier.

Lemma all_chars_forall (p : ascii -> bool) (s : string) :
  Str.all_chars p s = true <->
  forall c, In c (list_ascii_of_string s) -> p c = true.
Proof.
  induction s as [|a s IH]; simpl.
  - split; [intros _ c [] | reflexivity].
  - rewrite andb_true_iff, IH. split.
    + intros [Ha Hs] c [<- | Hc]; auto.
    + intros H. split; [apply H; now left | intros c Hc; apply H; now right].
Qed.

Lemma is_underscore_eq (c : ascii) :
  Ident.is_underscore c = true <-> c = "_"%char.
Proof. unfold Ident.is_underscore. apply Ascii.eqb_eq. Qed.

Lemma tail_char_iff (c : ascii) :
  Ident.tail_char c = true <->
  Ident.is_letter c = true \/ Ident.is_digit c = true \/ c = "_"%char.
Proof.
  unfold Ident.tail_char.
  rewrite !orb_true_iff, is_underscore_eq. tauto.
Qed.

Lemma in_chars_iff (c : ascii) (set : list ascii) :
  In c set <-> existsb (Ascii.eqb c) set = true.
Proof.
  rewrite existsb_exists. split.
  - intros H. exists c. split; [exact H | apply Ascii.eqb_refl].
  - intros (x & Hx & E). apply Ascii.eqb_eq in E. now subst x.
Qed.

Lemma is_letter_iff (c : ascii) :
  Ident.is_letter c = true <-> In c ascii_letters.
Proof.
  rewrite in_chars_iff.
  assert (Ident.is_letter c = existsb (Ascii.eqb c) ascii_letters) as ->
    by (destruct c as [[] [] [] [] [] [] [] []]; reflexivity).
  reflexivity.
Qed.

Lemma is_digit_iff (c : ascii) :
  Ident.is_digit c = true <-> In c decimal_digits.
Proof.
  rewrite in_chars_iff.
  assert (Ident.is_digit c = existsb (Ascii.eqb c) decimal_digits) as ->
    by (destruct c as [[] [] [] [] [] [] [] []]; reflexivity).
  reflexivity.
Qed.

Lemma is_not_digit_iff (c : ascii) :
  Ident.is_digit c = false <-> ~ In c decimal_digits.
Proof.
  rewrite <- is_digit_iff. destruct (Ident.is_digit c); split;
    congruence.
Qed.

Lemma tail_char_spec (c : ascii) :
  Ident.tail_char c = true <->
  In c ascii_letters \/ In c decimal_digits \/ c = "_"%char.
Proof. now rewrite tail_char_iff, is_letter_iff, is_digit_iff. Qed.

Lemma head_char_iff (c : ascii) :
  Ident.head_char c = true <->
  Ident.tail_char c = true /\ Ident.is_digit c = false.
Proof.
  destruct c as [[] [] [] [] [] [] [] []]; vm_compute;
    split; try tauto; try discriminate; intros [? ?]; congruence.
Qed.

(** The regular expression accepts exactly the identifiers of the
    specification. *)
Lemma isValidTableName_spec (name : string) :
  isValidTableName name = true <-> spec_identifier name.
Proof.
  unfold spec_identifier. destruct name as [|c rest]; simpl.
  - split; [discriminate | intros [H _]; now elim H].
  - rewrite andb_true_iff, head_char_iff, all_chars_forall. split.
    + intros [[Hc Hd] Hrest]. split; [discriminate|]. split.
      * intros a [<- | Ha]; apply tail_char_spec; auto.
      * intros a rest' E. inversion E; subst. now apply is_not_digit_iff.
    + intros (_ & Hall & Hfirst). split.
      * split; [apply tail_char_spec, Hall; now left|].
        apply is_not_digit_iff. now apply (Hfirst c rest).
      * intros a Ha. apply tail_char_spec, Hall. now right.
Qed.

End Identifier.

(** ** What each route does *)

Ltac unfold_handlers :=
  unfold serve, guarded, list_tables, list_records, get_record,
    create_record, update_record, delete_record, raw_query, read_property,
    spread, bind, ret, throw, await, db_all, db_first, db_run in *.

(** Splits on the innermost scrutinee first, so that the outcome of an
    awaited call is decided before the code that consumes it. *)
Ltac split_cases :=
  repeat (match goal with
          | |- context [match ?x with _ => _ end] =>
              lazymatch x with
              | context [match _ with _ => _ end] => fail
              | _ => destruct x eqn:?
              end
          end; cbv beta iota).

Section Routes.

Variable engine : Engine.
Variable env : Env.

(** On a matching path, the pieces the handlers index are the path
    parameters. *)
Lemma route_params (m path : string) (r : Route) :
  route_matches m path r ->
  match r with
  | ListRecords t | CreateRecord t => part path 2 = t
  | GetRecord t id | UpdateRecord t id | DeleteRecord t id =>
      part path 2 = t /\ part_value path 3 = JStr id
  | Preflight | ListTables | RawQuery | Docs => True
  end.
Proof.
  intros H. destruct H; try exact I;
    try (now apply part_collection);
    destruct (part_item _ _ H H0) as (? & _ & ?); now split.
Qed.

Lemma route_table_part (m path : string) (r : Route) (t : string) :
  route_matches m path r -> table_of r = Some t -> part path 2 = t.
Proof.
  intros H Ht. pose proof (route_params _ _ _ H) as P.
  destruct r; simpl in Ht; inversion Ht; subst; tauto.
Qed.

(** A table name that fails the validator ends the request at once. *)
Lemma serve_invalid_table (request : Request) (r : Route) (t : string) :
  route_matches (method request) (pathname request) r ->
  table_of r = Some t ->
  isValidTableName t = false ->
  serve engine env r request = (invalid_table, []).
Proof.
  intros H Ht Hv. pose proof (route_table_part _ _ _ _ H Ht) as P.
  destruct r; try discriminate Ht; unfold_handlers; rewrite P, Hv;
    reflexivity.
Qed.

(** A table name that passes it is never answered with the validator's
    response. *)
Lemma serve_valid_table (request : Request) (r : Route) (t : string) :
  route_matches (method request) (pathname request) r ->
  table_of r = Some t ->
  isValidTableName t = true ->
  ~ (status (fst (serve engine env r request)) = 400%Z /\
     body (fst (serve engine env r request))
     = BodyJson (failure "Invalid table name")).
Proof.
  intros H Ht Hv. pose proof (route_table_part _ _ _ _ H Ht) as P.
  destruct r; try discriminate Ht; unfold_handlers; rewrite P, Hv;
    cbn [negb]; split_cases; cbn; intros [Hs Hb];
    first [discriminate Hs | discriminate Hb].
Qed.

End Routes.

(** ** The handler as a whole *)

Section Whole.

Variable engine : Engine.
Variable env : Env.

(** The handler never reads the request headers. *)
Lemma fetch_ignores_headers (request : Request) (h : list (string * string)) :
  fetch engine env (with_headers request h) = fetch engine env request.
Proof. reflexivity. Qed.

(** At most one statement is executed per request. *)
Lemma at_most_one_call (request : Request) :
  (List.length (snd (fetch engine env request)) <= 1)%nat.
Proof.
  rewrite fetch_route_of.
  destruct (route_of (method request) (pathname request)) as [r|];
    [|simpl; lia].
  destruct r; unfold_handlers; split_cases; simpl; lia.
Qed.

(** An execution error is the request's error. *)
Lemma execution_error_surfaces (request : Request) (c : db_call)
  (msg : string) :
  In c (snd (fetch engine env request)) ->
  call_error env c = Some msg ->
  fst (fetch engine env request)
  = jsonResponse (failure (error_text msg)) corsHeaders 500.
Proof.
  rewrite fetch_route_of.
  destruct (route_of (method request) (pathname request)) as [r|];
    [|intros []].
  destruct r; unfold_handlers; split_cases; simpl;
    try (intros []; fail);
    intros [<- | []]; simpl; intros Hc;
    match goal with
    | E : _ = Ok _ |- _ => rewrite E in Hc; discriminate Hc
    | E : _ = Throw _ |- _ => rewrite E in Hc; inversion Hc; reflexivity
    end.
Qed.

(** A 400 is decided before the binding is touched. *)
Lemma bad_request_before_database (request : Request) :
  status (fst (fetch engine env request)) = 400%Z ->
  snd (fetch engine env request) = [].
Proof.
  rewrite fetch_route_of.
  destruct (route_of (method request) (pathname request)) as [r|];
    [|reflexivity].
  destruct r; unfold_handlers; split_cases; simpl;
    intros H; try reflexivity; discriminate H.
Qed.

(** What the [catch] clause makes of a thrown error. *)
Lemma thrown_error_is_500 (request : Request) (msg : string)
  (log : list db_call) :
  (method request =? "OPTIONS") = false ->
  routes engine env request [] = (Throw msg, log) ->
  fetch engine env request
  = (jsonResponse (failure (error_text msg)) corsHeaders 500, log).
Proof. intros Hm H. unfold fetch. now rewrite Hm, H. Qed.

Lemma error_text_verbatim (msg : string) :
  msg <> EmptyString -> error_text msg = msg.
Proof. destruct msg; [intros H; now elim H | reflexivity]. Qed.

(** No request is answered 401: the handler has no notion of a
    credential. *)
Lemma never_unauthorized (request : Request) :
  status (fst (fetch engine env request)) <> 401%Z.
Proof.
  rewrite fetch_route_of.
  destruct (route_of (method request) (pathname request)) as [r|];
    [|discriminate].
  destruct r; unfold_handlers; split_cases; simpl; discriminate.
Qed.

End Whole.

(** ** Not found *)

Section NotFound.

Variable engine : Engine.
Variable env : Env.

Lemma not_found_response (request : Request) (msg : string) :
  not_found_cause env request msg ->
  fetch engine env request
  = (jsonResponse (failure msg) corsHeaders 404,
     match route_of (method request) (pathname request) with
     | Some (GetRecord t id) => [CallFirst (JStr (select_one_sql t)) [JStr id]]
     | Some (UpdateRecord t id) =>
         match json request with
         | Ok b => [CallRun (JStr (update_sql t (Js.keys b)))
                      (Js.values b ++ [JStr id])%list]
         | Throw _ => []
         end
     | Some (DeleteRecord t id) => [CallRun (JStr (delete_sql t)) [JStr id]]
     | _ => []
     end).
Proof.
  intros C. destruct C as [H | t id H Hv Hdb | t id b r H Hv Hb Hm Hdb Hc
                            | t id r H Hv Hdb Hc].
  - rewrite (fetch_off_route _ _ _ H).
    apply no_route_iff in H. now rewrite H.
  - rewrite (fetch_on_route _ _ _ _ H), (route_of_complete _ _ _ H).
    destruct (route_params _ _ _ H) as [P2 P3].
    unfold_handlers. now rewrite P2, P3, Hv, Hdb.
  - rewrite (fetch_on_route _ _ _ _ H), (route_of_complete _ _ _ H).
    destruct (route_params _ _ _ H) as [P2 P3].
    unfold_handlers. rewrite P2, P3, Hv, Hb, Hm, Hdb. cbn [negb].
    now rewrite Hc.
  - rewrite (fetch_on_route _ _ _ _ H), (route_of_complete _ _ _ H).
    destruct (route_params _ _ _ H) as [P2 P3].
    unfold_handlers. rewrite P2, P3, Hv, Hdb. cbn [negb].
    now rewrite Hc.
Qed.

Lemma not_found_has_cause (request : Request) :
  status (fst (fetch engine env request)) = 404%Z ->
  exists msg, not_found_cause env request msg.
Proof.
  rewrite fetch_route_of.
  destruct (route_of (method request) (pathname request)) as [r|] eqn:E.
  - apply route_of_sound in E. pose proof (route_params _ _ _ E) as P.
    destruct r; unfold_handlers;
      try match type of P with
          | _ /\ _ => destruct P as [P2 P3]; rewrite P2, P3
          end;
      split_cases; simpl; intros H; try discriminate H;
      repeat match goal with
             | V : negb _ = false |- _ => apply negb_false_iff in V
             | Z0 : (_ =? _)%Z = true |- _ => apply Z.eqb_eq in Z0
             end;
      eexists; econstructor; eassumption.
  - intros _. eexists. apply NF_route. now apply no_route_iff.
Qed.

End NotFound.

(** ** The envelope *)

Section Envelope.

Variable engine : Engine.
Variable env : Env.

Lemma failure_ok (msg : string) : envelope_ok (failure msg).
Proof. split; simpl; [intros _; now split | discriminate]. Qed.

Lemma with_data_ok (d : jsval) : envelope_ok (with_data true d).
Proof. split; simpl; [discriminate | reflexivity]. Qed.

Lemma with_data_meta_ok (d m : jsval) : envelope_ok (with_data_meta d m).
Proof. split; simpl; [discriminate | reflexivity]. Qed.

Lemma envelope_holds (request : Request) :
  runs_report_success env (snd (fetch engine env request)) = true ->
  response_ok (fst (fetch engine env request)).
Proof.
  rewrite fetch_route_of.
  destruct (route_of (method request) (pathname request)) as [r|];
    [|intros _; apply failure_ok].
  destruct r; unfold_handlers; split_cases; simpl; intros H;
    try exact I;
    try apply failure_ok; try apply with_data_ok;
    try apply with_data_meta_ok;
    match goal with
    | E : exec_run _ _ _ = Ok ?r |- _ =>
        rewrite E, andb_true_r in H; unfold response_ok; simpl;
        rewrite H; apply with_data_ok
    end.
Qed.

End Envelope.

(** ** Reading and writing records *)

Section Records.

Variable engine : Engine.
Variable env : Env.

Lemma param_or_bound (name fallback : string) (default : Z)
  (params : list (string * string)) :
  ParseInt.parseInt fallback = Js.of_Z default ->
  ParseInt.parseInt (param_or name fallback params)
  = page_bound default (searchParams_get name params).
Proof.
  intros H. unfold param_or, page_bound.
  destruct (searchParams_get name params) as [[|c v]|]; simpl Str.nonempty;
    cbv iota; auto.
Qed.

(** The one statement of a page request, and its answer. *)
Lemma list_records_call (request : Request) (t : string) :
  route_matches (method request) (pathname request) (ListRecords t) ->
  isValidTableName t = true ->
  let sql := JStr (select_page_sql t) in
  let binds :=
    [JNum (page_bound 100 (searchParams_get "limit" (searchParams request)));
     JNum (page_bound 0 (searchParams_get "offset" (searchParams request)))] in
  snd (fetch engine env request) = [CallAll sql binds] /\
  forall res, exec_all (DB env) sql binds = Ok res ->
    fst (fetch engine env request)
    = jsonResponse (with_data_meta (JArr (results res)) (all_meta res))
        corsHeaders 200.
Proof.
  intros H Hv sql binds. subst sql binds.
  rewrite (fetch_on_route _ _ _ _ H).
  pose proof (route_params _ _ _ H) as P. simpl in P.
  unfold_handlers. rewrite P, Hv. cbn [negb].
  rewrite (param_or_bound "limit" "100" 100 _ eq_refl).
  rewrite (param_or_bound "offset" "0" 0 _ eq_refl).
  split.
  - split_cases; reflexivity.
  - intros res Hres. now rewrite Hres.
Qed.

(** A value that is not an object has columns exactly when it has
    indices. *)
Lemma body_missing_non_object (b : jsval) :
  Js.is_object b = false -> body_missing b = negb (has_indices b).
Proof.
  unfold body_missing.
  destruct b as [| |flag|n|s|items|props]; simpl; intros H;
    try reflexivity; try discriminate H.
  - apply orb_true_r.
  - apply orb_true_r.
  - now destruct s.
  - now destruct items.
Qed.

Lemma indexed_keys (b : jsval) :
  has_indices b = true ->
  exists n, (0 < n)%nat /\ Js.keys b = map Str.of_nat (seq 0 n).
Proof.
  destruct b as [| |flag|n|s|items|props]; simpl; try discriminate.
  - destruct s as [|c s]; [discriminate|]. intros _.
    exists (String.length (String c s)). split; [simpl; lia | reflexivity].
  - destruct items as [|x items]; [discriminate|]. intros _.
    exists (List.length (x :: items)). split; [simpl; lia | reflexivity].
Qed.

Section Writing.

Variable request : Request.
Variable r : Route.
Variable t : string.
Hypothesis on_route : route_matches (method request) (pathname request) r.
Hypothesis writing : writes_body r = true.
Hypothesis table : table_of r = Some t.
Hypothesis valid : isValidTableName t = true.

(** A body that cannot be parsed is an error of the request. *)
Lemma write_unparsed (msg : string) :
  json request = Throw msg ->
  fetch engine env request
  = (jsonResponse (failure (error_text msg)) corsHeaders 500, []).
Proof.
  intros Hj. rewrite (fetch_on_route _ _ _ _ on_route).
  pose proof (route_table_part _ _ _ _ on_route table) as P.
  destruct r; try discriminate writing; unfold_handlers;
    rewrite P, valid, Hj; reflexivity.
Qed.

(** A body without columns is refused. *)
Lemma write_refused (b : jsval) :
  json request = Ok b -> body_missing b = true ->
  fetch engine env request = (body_required, []).
Proof.
  intros Hj Hb. rewrite (fetch_on_route _ _ _ _ on_route).
  pose proof (route_table_part _ _ _ _ on_route table) as P.
  destruct r; try discriminate writing; unfold_handlers;
    rewrite P, valid, Hj, Hb; reflexivity.
Qed.

(** Any other body is turned into a statement, whatever its shape. *)
Lemma write_executed (b : jsval) :
  json request = Ok b -> body_missing b = false ->
  snd (fetch engine env request)
  = [CallRun (JStr (write_sql r (Js.keys b))) (write_binds r (Js.values b))].
Proof.
  intros Hj Hb. rewrite (fetch_on_route _ _ _ _ on_route).
  pose proof (route_params _ _ _ on_route) as P.
  pose proof (route_table_part _ _ _ _ on_route table) as T.
  destruct r as [ | | | | tbl | tbl id | | | ];
    try discriminate writing; rewrite T in P; unfold_handlers.
  - subst tbl.
    rewrite T, valid, Hj, Hb. cbn [negb]. split_cases; reflexivity.
  - destruct P as [P2 P3]. subst tbl.
    rewrite T, P3, valid, Hj, Hb. cbn [negb]. split_cases; reflexivity.
Qed.

End Writing.

(** A create that the binding accepts is answered 201 with the two
    numbers of the binding's result. *)
Lemma create_answer (request : Request) (t : string) (b : jsval)
  (res : RunResult) :
  route_matches (method request) (pathname request) (CreateRecord t) ->
  isValidTableName t = true ->
  json request = Ok b ->
  body_missing b = false ->
  exec_run (DB env) (JStr (insert_sql t (Js.keys b))) (Js.values b) = Ok res ->
  fetch engine env request
  = (jsonResponse (with_data (run_success res) (created_data res))
       corsHeaders 201,
     [CallRun (JStr (insert_sql t (Js.keys b))) (Js.values b)]).
Proof.
  intros H Hv Hj Hb Hres. rewrite (fetch_on_route _ _ _ _ H).
  pose proof (route_params _ _ _ H) as P. simpl in P.
  unfold_handlers. now rewrite P, Hv, Hj, Hb, Hres.
Qed.

End Records.

(** ** Reading integers *)

Section ReadingIntegers.

Lemma parseInt_steps (s : string) :
  ParseInt.parseInt s
  = let (sign, s2) := sign_of (ParseInt.trim_start s) in
    let (radix, s3) := radix_of s2 in
    match ParseInt.digits radix None s3 with
    | Some z =>
        if (z =? 0)%Z
        then (if (sign <? 0)%Z then NegativeZero else Js.of_Z 0)
        else Js.of_integer (sign * z)
    | None => NaN
    end.
Proof. reflexivity. Qed.

Lemma of_integer_not_NaN (z : Z) : Js.of_integer z <> NaN.
Proof.
  unfold Js.of_integer.
  repeat match goal with
         | |- context [if ?c then _ else _] => destruct c
         end; discriminate.
Qed.

Lemma digits_some (radix : nat) (a : Z) (s : string) :
  ParseInt.digits radix (Some a) s <> None.
Proof.
  revert a. induction s as [|c s IH]; intros a; simpl; [discriminate|].
  destruct (ParseInt.digit radix c); [apply IH | discriminate].
Qed.

Lemma digits_none (radix : nat) (s : string) :
  ParseInt.digits radix None s = None <->
  match s with
  | String c _ => ParseInt.digit radix c = None
  | EmptyString => True
  end.
Proof.
  destruct s as [|c s]; simpl; [tauto|].
  destruct (ParseInt.digit radix c) eqn:E.
  - split; [intros H; now apply digits_some in H | discriminate].
  - tauto.
Qed.

Lemma is_space_iff (c : ascii) :
  ParseInt.is_space c = true <-> In c white_space.
Proof.
  rewrite in_chars_iff.
  assert (ParseInt.is_space c = existsb (Ascii.eqb c) white_space) as ->
    by (destruct c as [[] [] [] [] [] [] [] []]; reflexivity).
  reflexivity.
Qed.

Lemma no_decimal_digit_iff (c : ascii) :
  ParseInt.digit 10 c = None <-> ~ In c decimal_digits.
Proof.
  rewrite in_chars_iff.
  assert (existsb (Ascii.eqb c) decimal_digits
          = match ParseInt.digit 10 c with Some _ => true | None => false end)
    as -> by (destruct c as [[] [] [] [] [] [] [] []]; reflexivity).
  destruct (ParseInt.digit 10 c); split; congruence.
Qed.

Lemma no_hex_digit_iff (c : ascii) :
  ParseInt.digit 16 c = None <-> ~ In c hex_digits.
Proof.
  rewrite in_chars_iff.
  assert (existsb (Ascii.eqb c) hex_digits
          = match ParseInt.digit 16 c with Some _ => true | None => false end)
    as -> by (destruct c as [[] [] [] [] [] [] [] []]; reflexivity).
  destruct (ParseInt.digit 16 c); split; congruence.
Qed.

Lemma digits_none_decimal (s : string) :
  ParseInt.digits 10 None s = None <-> ~ starts_in decimal_digits s.
Proof.
  rewrite digits_none. destruct s as [|c s]; simpl; [tauto|].
  apply no_decimal_digit_iff.
Qed.

Lemma digits_none_hex (s : string) :
  ParseInt.digits 16 None s = None <-> ~ starts_in hex_digits s.
Proof.
  rewrite digits_none. destruct s as [|c s]; simpl; [tauto|].
  apply no_hex_digit_iff.
Qed.

(** The sign step: one of three cases. *)
Lemma sign_of_cases (s : string) :
  (exists c rest, s = String c rest /\ In c sign_chars /\
                  exists sg, sign_of s = (sg, rest)) \/
  (~ starts_in sign_chars s /\ sign_of s = (1%Z, s)).
Proof.
  destruct s as [|c rest].
  - right. split; [intros [] | reflexivity].
  - destruct c as [[] [] [] [] [] [] [] []];
      first [ right; split;
              [ intros [H | [H | []]]; discriminate H | reflexivity ]
            | left; eexists _, _; split; [reflexivity|]; split;
              [ simpl; tauto | eexists; reflexivity ] ].
Qed.

(** The prefix step: radix 16 after [0x] or [0X], radix 10 otherwise. *)
Lemma radix_of_cases (s : string) :
  (exists x rest, s = String "0" (String x rest) /\
                  (x = "x"%char \/ x = "X"%char) /\
                  radix_of s = (16, rest)) \/
  ((forall x rest, s = String "0" (String x rest) ->
      x <> "x"%char /\ x <> "X"%char) /\
   radix_of s = (10, s)).
Proof.
  destruct s as [|c t].
  - right. split; [discriminate | reflexivity].
  - destruct (Ascii.eqb_spec c "0") as [->|N].
    + destruct t as [|x rest].
      * right. split; [discriminate | reflexivity].
      * destruct x as [[] [] [] [] [] [] [] []];
          first [ left; eexists _, _; split; [reflexivity|]; split;
                  [ tauto | reflexivity ]
                | right; split;
                  [ intros x' rest' E; inversion E; split; discriminate
                  | reflexivity ] ].
    + right. split.
      * intros x rest E. inversion E. now elim N.
      * destruct c as [[] [] [] [] [] [] [] []];
          first [ reflexivity | now elim N ].
Qed.

Lemma no_digits_iff (s : string) :
  no_digits s <->
  (let (radix, s3) := radix_of s in ParseInt.digits radix None s3 = None).
Proof.
  unfold no_digits.
  destruct (radix_of_cases s) as [(x & rest & -> & Hx & ->) | [Hno ->]].
  - rewrite digits_none_hex. split.
    + intros [H | (x' & rest' & E & _ & H)].
      * elim H. simpl. tauto.
      * now inversion E; subst.
    + intros H. right. now exists x, rest.
  - rewrite digits_none_decimal. split.
    + intros [H | (x & rest & E & Hx & _)]; [exact H|].
      destruct (Hno _ _ E) as [N1 N2]. destruct Hx; contradiction.
    + intros H. now left.
Qed.

Lemma parseInt_NaN_after_sign (s : string) :
  (let (sign, s2) := sign_of s in
   let (radix, s3) := radix_of s2 in
   match ParseInt.digits radix None s3 with
   | Some z =>
       if (z =? 0)%Z
       then (if (sign <? 0)%Z then NegativeZero else Js.of_Z 0)
       else Js.of_integer (sign * z)
   | None => NaN
   end) = NaN <->
  (let (sign, s2) := sign_of s in no_digits s2).
Proof.
  destruct (sign_of s) as [sign s2]. rewrite no_digits_iff.
  destruct (radix_of s2) as [radix s3].
  destruct (ParseInt.digits radix None s3) as [z|]; [|tauto].
  split; [|discriminate].
  destruct (z =? 0)%Z; [destruct (sign <? 0)%Z; discriminate|].
  intros H. now apply of_integer_not_NaN in H.
Qed.

Lemma trim_start_fixed (s : string) :
  ~ starts_in white_space s -> ParseInt.trim_start s = s.
Proof.
  destruct s as [|c s]; [reflexivity|]. simpl. intros H.
  destruct (ParseInt.is_space c) eqn:E; [|reflexivity].
  apply is_space_iff in E. contradiction.
Qed.

Lemma sign_is_not_space (c : ascii) :
  In c sign_chars -> ParseInt.is_space c = false.
Proof. intros [<- | [<- | []]]; reflexivity. Qed.

(** [parseInt] gives NaN exactly on the texts that fail to parse as an
    integer. *)
Lemma parseInt_NaN_iff (s : string) :
  ParseInt.parseInt s = NaN <-> reads_no_integer s.
Proof.
  split.
  - induction s as [|c rest IH].
    + intros _. apply RN_bare; [intros [] | intros [] | left; intros []].
    + destruct (ParseInt.is_space c) eqn:E.
      * intros H. apply RN_space; [now apply is_space_iff|]. apply IH.
        rewrite parseInt_steps in *. simpl ParseInt.trim_start in H.
        now rewrite E in H.
      * intros H. rewrite parseInt_steps in H.
        simpl ParseInt.trim_start in H. rewrite E in H.
        apply parseInt_NaN_after_sign in H.
        destruct (sign_of_cases (String c rest))
          as [(c' & rest' & Es & Hc & sg & Hs) | [Hn Hs]];
          rewrite Hs in H.
        -- inversion Es; subst. now apply RN_signed.
        -- apply RN_bare; [|exact Hn|exact H].
           simpl. intros Hw. apply is_space_iff in Hw. congruence.
  - intros H. induction H as [c rest Hc _ IH | c rest Hc Hd | s Hw Hs Hd].
    + rewrite parseInt_steps in *. simpl ParseInt.trim_start.
      apply is_space_iff in Hc. now rewrite Hc.
    + rewrite parseInt_steps. simpl ParseInt.trim_start.
      rewrite (sign_is_not_space _ Hc).
      apply parseInt_NaN_after_sign.
      destruct (sign_of_cases (String c rest))
        as [(c' & rest' & Es & _ & sg & ->) | [Hn _]].
      * now inversion Es; subst.
      * now elim Hn.
    + rewrite parseInt_steps, (trim_start_fixed _ Hw).
      apply parseInt_NaN_after_sign.
      destruct (sign_of_cases s)
        as [(c' & rest' & -> & Hc & _) | [_ ->]]; [now elim Hs | exact Hd].
Qed.

End ReadingIntegers.

(** * The claims of the specification *)

(** C1.  The specification requires every protected route to answer 401
    when the [X-API-Key] credential is missing or wrong, without touching
    the database.  The handler has no credential check: [GET /tables]
    sent without any header executes the catalogue query and is never
    answered 401, whatever the binding does. *)
Theorem unauthenticated_request_reaches_database (engine : Engine) (env : Env) :
  headers Sample.anonymous_list = [] /\
  snd (fetch engine env Sample.anonymous_list)
  = [CallAll (JStr list_tables_sql) []] /\
  status (fst (fetch engine env Sample.anonymous_list)) <> 401%Z /\
  (forall res, exec_all (DB env) (JStr list_tables_sql) [] = Ok res ->
     fst (fetch engine env Sample.anonymous_list)
     = jsonResponse (with_data true (JArr (results res))) corsHeaders 200).
Proof.
  split; [reflexivity|].
  unfold fetch, routes. cbn [method pathname Sample.anonymous_list Sample.request].
  unfold_handlers. simpl.
  destruct (exec_all (DB env) (JStr list_tables_sql) []) as [res|msg];
    simpl; repeat split;
    first [ intros res' E; first [discriminate E | now inversion E]
          | intros E; discriminate E ].
Qed.

(** C2.  On every table-scoped route the table-name parameter is accepted
    exactly when it is an identifier of the grammar
    [^[A-Za-z_][A-Za-z0-9_]*$]: the validator accepts exactly those
    names; a name that fails the grammar is answered with status 400 and
    the envelope [{success: false, error: "Invalid table name"}], with no
    database call; and a name that matches the grammar is never answered
    with that validation error. *)
Theorem table_name_accepted_iff_identifier (engine : Engine) (env : Env)
  (request : Request) (r : Route) (t : string) :
  route_matches (method request) (pathname request) r ->
  table_of r = Some t ->
  (isValidTableName t = true <-> spec_identifier t) /\
  (~ spec_identifier t ->
     status (fst (fetch engine env request)) = 400%Z /\
     body (fst (fetch engine env request))
     = BodyJson {| success := false;
                   data := None;
                   error := Some "Invalid table name";
                   meta := None |} /\
     snd (fetch engine env request) = []) /\
  (spec_identifier t ->
     ~ (status (fst (fetch engine env request)) = 400%Z /\
        body (fst (fetch engine env request))
        = BodyJson {| success := false;
                      data := None;
                      error := Some "Invalid table name";
                      meta := None |})).
Proof.
  intros H Ht. split; [apply isValidTableName_spec|].
  rewrite (fetch_on_route _ _ _ _ H). split; intros Hv.
  - assert (isValidTableName t = false) as Hf.
    { destruct (isValidTableName t) eqn:E; [|reflexivity].
      elim Hv. now apply isValidTableName_spec. }
    rewrite (serve_invalid_table engine env request r t H Ht Hf).
    repeat split.
  - apply isValidTableName_spec in Hv.
    exact (serve_valid_table engine env request r t H Ht Hv).
Qed.

Lemma table_name_accepted_iff_identifier_witness :
  (~ spec_identifier "1users" /\
   status (fst (fetch Sample.engine Sample.env
                  (Sample.request "GET" "/tables/1users" Sample.no_body)))
   = 400%Z /\
   body (fst (fetch Sample.engine Sample.env
                (Sample.request "GET" "/tables/1users" Sample.no_body)))
   = BodyJson {| success := false;
                 data := None;
                 error := Some "Invalid table name";
                 meta := None |} /\
   snd (fetch Sample.engine Sample.env
          (Sample.request "GET" "/tables/1users" Sample.no_body)) = []) /\
  (spec_identifier "users" /\
   ~ (status (fst (fetch Sample.engine Sample.env Sample.page_abc)) = 400%Z /\
      body (fst (fetch Sample.engine Sample.env Sample.page_abc))
      = BodyJson {| success := false;
                    data := None;
                    error := Some "Invalid table name";
                    meta := None |})).
Proof.
  assert (~ spec_identifier "1users") as Bad.
  { intros (_ & _ & H). apply (H "1"%char "users" eq_refl). simpl. tauto. }
  assert (spec_identifier "users") as Good.
  { split; [discriminate|]. split.
    - intros c Hc. left. simpl in Hc. simpl.
      repeat (destruct Hc as [<- | Hc]; [tauto|]). destruct Hc.
    - intros c rest E. inversion E. simpl.
      intros F. repeat (destruct F as [F | F]; [discriminate F|]). destruct F. }
  split; (split; [assumption|]).
  - apply (proj1 (proj2 (table_name_accepted_iff_identifier
                           Sample.engine Sample.env
                           (Sample.request "GET" "/tables/1users"
                              Sample.no_body)
                           (ListRecords "1users") "1users"
                           (RM_list "1users" eq_refl) eq_refl))).
    exact Bad.
  - apply (proj2 (proj2 (table_name_accepted_iff_identifier
                           Sample.engine Sample.env Sample.page_abc
                           (ListRecords "users") "users"
                           (RM_list "users" eq_refl) eq_refl))).
    exact Good.
Defined.

(** C3.  The specification requires every identifier interpolated into
    SQL text to have passed the identifier validator, the column names
    taken from the keys of the request body included.  The handler joins
    the keys into the statement unchecked: a key that is not an
    identifier becomes part of the text of the INSERT. *)
Theorem column_names_reach_sql_unvalidated (engine : Engine) (env : Env) :
  isValidTableName Sample.hostile_column = false /\
  snd (fetch engine env Sample.hostile_create)
  = [CallRun
       (JStr "INSERT INTO users (name) VALUES (?); DROP TABLE users; --) VALUES (?)")
       [JStr "x"]].
Proof.
  split; [reflexivity|].
  unfold fetch, routes.
  cbn [method pathname Sample.hostile_create Sample.request].
  unfold_handlers. simpl. split_cases; reflexivity.
Qed.

(** C4.  The specification requires [POST /tables/{table}] with a missing
    request body to be answered 400 "Request body is required".  With no
    body at all [request.json()] throws before the emptiness test is
    reached, and the handler answers 500 with the parser's message. *)
Theorem missing_body_is_answered_500 (engine : Engine) (env : Env) :
  isValidTableName "users" = true /\
  fetch engine env Sample.bodiless_create
  = (jsonResponse (failure "Unexpected end of JSON input") corsHeaders 500, []) /\
  fst (fetch engine env Sample.bodiless_create) <> body_required.
Proof.
  split; [reflexivity|]. split; [reflexivity|]. discriminate.
Qed.

(** C5, as stated: a supplied [limit] that fails to parse as an integer
    is treated as the default 100.  It is not: [limit=abc] is bound as
    NaN. *)
Lemma unparsable_limit_is_not_defaulted :
  searchParams_get "limit" (searchParams Sample.page_abc) = Some "abc" /\
  ParseInt.parseInt "abc" = NaN /\
  snd (fetch Sample.engine Sample.env Sample.page_abc)
  = [CallAll (JStr "SELECT * FROM users LIMIT ? OFFSET ?")
       [JNum NaN; JNum (Js.of_Z 0)]] /\
  snd (fetch Sample.engine Sample.env Sample.page_abc)
  <> [CallAll (JStr "SELECT * FROM users LIMIT ? OFFSET ?")
        [JNum (Js.of_Z 100); JNum (Js.of_Z 0)]].
Proof.
  split; [reflexivity|]. split; [reflexivity|]. split; [reflexivity|].
  intros H. discriminate H.
Qed.

(** C5, amended.  For [GET /tables/{table}] with a valid table name the
    one statement executed is [SELECT * FROM {table} LIMIT ? OFFSET ?]
    with (limit, offset) as bind parameters; a parameter that is omitted
    or empty is bound as its default, 100 or 0; a supplied one is bound
    as [parseInt] reads it, which is NaN exactly when the text fails to
    parse as an integer, and the handler raises no error of its own over
    it: when the binding resolves, the answer is 200 with the rows and the
    metadata. *)
Theorem page_statement_and_bounds (engine : Engine) (env : Env)
  (request : Request) (t : string) :
  route_matches (method request) (pathname request) (ListRecords t) ->
  isValidTableName t = true ->
  let supplied name := searchParams_get name (searchParams request) in
  let sql := JStr ("SELECT * FROM " ++ t ++ " LIMIT ? OFFSET ?") in
  let binds := [JNum (page_bound 100 (supplied "limit"));
                JNum (page_bound 0 (supplied "offset"))] in
  snd (fetch engine env request) = [CallAll sql binds] /\
  (forall res, exec_all (DB env) sql binds = Ok res ->
     status (fst (fetch engine env request)) = 200%Z /\
     body (fst (fetch engine env request))
     = BodyJson {| success := true;
                   data := Some (JArr (results res));
                   error := None;
                   meta := Some (all_meta res) |}) /\
  (forall d, page_bound d None = Finite (inject_Z d) /\
             page_bound d (Some EmptyString) = Finite (inject_Z d)) /\
  (forall d v, v <> EmptyString ->
     page_bound d (Some v) = ParseInt.parseInt v /\
     (page_bound d (Some v) = NaN <-> reads_no_integer v)).
Proof.
  intros H Hv supplied sql binds.
  destruct (list_records_call engine env request t H Hv) as [Hcall Hres].
  split; [exact Hcall|]. split; [|split].
  - intros res Hr. rewrite (Hres res Hr). now split.
  - intros d. now split.
  - intros d [|c v] Hne; [now elim Hne|]. split; [reflexivity|].
    apply parseInt_NaN_iff.
Qed.

Lemma page_statement_and_bounds_witness :
  route_matches "GET" "/tables/users" (ListRecords "users") /\
  isValidTableName "users" = true /\
  reads_no_integer "abc" /\
  snd (fetch Sample.engine Sample.env Sample.page_abc)
  = [CallAll (JStr "SELECT * FROM users LIMIT ? OFFSET ?")
       [JNum NaN; JNum (Finite (inject_Z 0))]].
Proof.
  split; [apply (RM_list "users"); reflexivity|]. split; [reflexivity|].
  assert (reads_no_integer "abc") as Abc.
  { apply RN_bare.
    - simpl. intros F.
      repeat (destruct F as [F | F]; [discriminate F|]). destruct F.
    - simpl. intros F.
      repeat (destruct F as [F | F]; [discriminate F|]). destruct F.
    - left. simpl. intros F.
      repeat (destruct F as [F | F]; [discriminate F|]). destruct F. }
  split; [exact Abc|].
  destruct (page_statement_and_bounds Sample.engine Sample.env Sample.page_abc
              "users" (RM_list "users" eq_refl) eq_refl)
    as (Hcall & _ & _ & Hb).
  rewrite Hcall. cbn [searchParams_get searchParams Sample.page_abc String.eqb
                      Ascii.eqb Bool.eqb].
  destruct (Hb 100%Z "abc" ltac:(discriminate)) as [_ Hnan].
  rewrite (proj2 Hnan Abc). reflexivity.
Defined.

(** C6.  The handler answers 404 exactly when no route pattern matches
    the (method, path) pair, with error "Route not found", or a
    [GET /tables/{table}/{id}] finds no row, or a [PUT] or [DELETE] on
    [/tables/{table}/{id}] changes no row, with error "Record not found";
    nothing else is answered 404. *)
Theorem not_found_exactly_when (engine : Engine) (env : Env)
  (request : Request) :
  (status (fst (fetch engine env request)) = 404%Z <->
   exists msg, not_found_cause env request msg) /\
  (forall msg, not_found_cause env request msg ->
     fst (fetch engine env request)
     = jsonResponse (failure msg) corsHeaders 404 /\
     (msg = "Route not found" \/ msg = "Record not found")).
Proof.
  split.
  - split; [apply not_found_has_cause|].
    intros [msg C]. now rewrite (not_found_response engine env _ _ C).
  - intros msg C. split.
    + now rewrite (not_found_response engine env _ _ C).
    + destruct C; auto.
Qed.

Lemma not_found_exactly_when_witness :
  status (fst (fetch Sample.engine Sample.env Sample.get_one)) = 404%Z /\
  exists msg, not_found_cause Sample.env Sample.get_one msg.
Proof.
  split; [reflexivity|].
  apply (proj1 (not_found_exactly_when Sample.engine Sample.env Sample.get_one)).
  reflexivity.
Defined.

(** C7, as stated: the envelope invariant holds on every code path, the
    create, update and delete paths included.  It does not: an update
    whose [run()] resolves with [success: false] is answered with
    [success] false, [data] present and no [error]. *)
Lemma unsuccessful_run_breaks_envelope :
  fst (fetch Sample.engine Sample.unsuccessful_env Sample.update_one)
  = jsonResponse
      {| success := false;
         data := Some (JObj [("changes", JNum (Js.of_Z 1))]);
         error := None;
         meta := None |}
      corsHeaders 200 /\
  ~ response_ok
      (fst (fetch Sample.engine Sample.unsuccessful_env Sample.update_one)).
Proof.
  split; [reflexivity|].
  intros [H _]. destruct (H eq_refl) as [He _]. now apply He.
Qed.

(** C7, amended.  Every JSON response body satisfies the envelope
    invariant ([success] false implies [error] present and [data] absent,
    [success] true implies [error] absent) provided that the [run()] of a
    create, update or delete, if one was executed, resolved with
    [success: true] or threw; on those three paths the [success] member
    is whatever the database result carries. *)
Theorem envelope_invariant (engine : Engine) (env : Env) (request : Request) :
  runs_report_success env (snd (fetch engine env request)) = true ->
  response_ok (fst (fetch engine env request)).
Proof. apply envelope_holds. Qed.

Lemma envelope_invariant_witness :
  runs_report_success Sample.env
    (snd (fetch Sample.engine Sample.env Sample.update_one)) = true /\
  response_ok (fst (fetch Sample.engine Sample.env Sample.update_one)).
Proof.
  split; [reflexivity|].
  apply (envelope_invariant Sample.engine Sample.env Sample.update_one).
  reflexivity.
Defined.

(** C8, as stated: the error member of the 500 response carries the
    thrown message verbatim.  It does not when the message is empty: the
    handler substitutes "Internal server error". *)
Lemma empty_message_is_replaced :
  call_error (Sample.failing_env "") (CallAll (JStr list_tables_sql) [])
  = Some "" /\
  snd (fetch Sample.engine (Sample.failing_env "") Sample.anonymous_list)
  = [CallAll (JStr list_tables_sql) []] /\
  status (fst (fetch Sample.engine (Sample.failing_env "")
                 Sample.anonymous_list)) = 500%Z /\
  response_error (fst (fetch Sample.engine (Sample.failing_env "")
                         Sample.anonymous_list))
  = Some "Internal server error" /\
  response_error (fst (fetch Sample.engine (Sample.failing_env "")
                         Sample.anonymous_list))
  <> Some "".
Proof.
  repeat split; intros H; discriminate H.
Qed.

(** C8, amended.  Any error thrown during request handling, in
    particular any error of a database execution, is caught at the
    handler boundary and answered 500 with [success] false and no further
    classification; the error member is the thrown message verbatim when
    that message is not empty, and "Internal server error" when it is
    empty; a 400 is returned before any database call. *)
Theorem thrown_errors_become_500 (engine : Engine) (env : Env)
  (request : Request) :
  (forall msg log,
     (method request =? "OPTIONS") = false ->
     routes engine env request [] = (Throw msg, log) ->
     fetch engine env request
     = (jsonResponse (failure (error_text msg)) corsHeaders 500, log)) /\
  (forall c msg,
     In c (snd (fetch engine env request)) ->
     call_error env c = Some msg ->
     fst (fetch engine env request)
     = jsonResponse (failure (error_text msg)) corsHeaders 500) /\
  (forall msg, msg <> EmptyString -> error_text msg = msg) /\
  error_text EmptyString = "Internal server error" /\
  (status (fst (fetch engine env request)) = 400%Z ->
   snd (fetch engine env request) = []).
Proof.
  split; [intros msg log; apply thrown_error_is_500|].
  split; [intros c msg; apply execution_error_surfaces|].
  split; [apply error_text_verbatim|].
  split; [reflexivity|]. apply bad_request_before_database.
Qed.

Lemma thrown_errors_become_500_witness :
  call_error (Sample.failing_env "no such table: users")
    (CallFirst (JStr "SELECT * FROM users WHERE id = ?") [JStr "1"])
  = Some "no such table: users" /\
  fst (fetch Sample.engine (Sample.failing_env "no such table: users")
         Sample.get_one)
  = jsonResponse (failure "no such table: users") corsHeaders 500.
Proof.
  split; [reflexivity|].
  apply (proj1 (proj2 (thrown_errors_become_500 Sample.engine
                         (Sample.failing_env "no such table: users")
                         Sample.get_one))
           (CallFirst (JStr "SELECT * FROM users WHERE id = ?") [JStr "1"])
           "no such table: users").
  - left. reflexivity.
  - reflexivity.
Defined.

(** C9, as stated: a body that is valid JSON but not an object is
    rejected with a validation error instead of being built into a
    statement.  It is not when the body is a non-empty array: [[1, 2]]
    becomes an INSERT whose columns are the array indices. *)
Lemma array_body_is_built_into_sql :
  json Sample.array_create = Ok (JArr [JNum (Js.of_Z 1); JNum (Js.of_Z 2)]) /\
  fetch Sample.engine Sample.env Sample.array_create
  = (jsonResponse
       (with_data true
          (JObj [("lastRowId", JNum (Js.of_Z 7)); ("changes", JNum (Js.of_Z 1))]))
       corsHeaders 201,
     [CallRun (JStr "INSERT INTO users (0, 1) VALUES (?, ?)")
        [JNum (Js.of_Z 1); JNum (Js.of_Z 2)]]) /\
  status (fst (fetch Sample.engine Sample.env Sample.array_create)) <> 400%Z.
Proof.
  split; [reflexivity|]. split; [reflexivity|]. intros H. discriminate H.
Qed.

(** C9, amended.  For [POST /tables/{table}] and
    [PUT /tables/{table}/{id}] with a valid table name, a body that is
    valid JSON but not an object is rejected with status 400 and the
    envelope [{success: false, error: "Request body is required"}],
    before any database call, when it is null, a boolean, a number, the
    empty string or the empty array; a non-empty string or array is not
    rejected: the indices 0, 1, ... of its own characters or elements
    become the column names of the INSERT or UPDATE that is executed,
    with those characters or elements as the bind arguments. *)
Theorem non_object_body (engine : Engine) (env : Env) (request : Request)
  (r : Route) (t : string) (b : jsval) :
  route_matches (method request) (pathname request) r ->
  writes_body r = true ->
  table_of r = Some t ->
  spec_identifier t ->
  json request = Ok b ->
  (rejected_shape b ->
     status (fst (fetch engine env request)) = 400%Z /\
     body (fst (fetch engine env request))
     = BodyJson {| success := false;
                   data := None;
                   error := Some "Request body is required";
                   meta := None |} /\
     snd (fetch engine env request) = []) /\
  (forall columns values, indexed_body b columns values ->
     (r = CreateRecord t ->
        snd (fetch engine env request)
        = [CallRun
             (JStr ("INSERT INTO " ++ t ++ " (" ++ Str.join ", " columns
                    ++ ") VALUES ("
                    ++ Str.join ", " (map (fun _ => "?") columns) ++ ")"))
             values]) /\
     (forall id, r = UpdateRecord t id ->
        snd (fetch engine env request)
        = [CallRun
             (JStr ("UPDATE " ++ t ++ " SET "
                    ++ Str.join ", " (map (fun c => c ++ " = ?") columns)
                    ++ " WHERE id = ?"))
             (values ++ [JStr id])%list])).
Proof.
  intros H Hw Ht Hg Hj. apply isValidTableName_spec in Hg. split.
  - intros Hs.
    rewrite (write_refused engine env request r t H Hw Ht Hg b Hj).
    + repeat split.
    + destruct Hs; try reflexivity; unfold body_missing; apply orb_true_r.
  - intros columns values Hi.
    assert (body_missing b = false /\ Js.keys b = columns /\ Js.values b = values)
      as (Hm & <- & <-) by (destruct Hi; repeat split).
    rewrite (write_executed engine env request r t H Hw Ht Hg b Hj Hm).
    split; [intros -> | intros id ->]; reflexivity.
Qed.

Lemma non_object_body_witness :
  (rejected_shape JNull /\
   status (fst (fetch Sample.engine Sample.env
                  (Sample.request "POST" "/tables/users" (Ok JNull))))
   = 400%Z /\
   body (fst (fetch Sample.engine Sample.env
                (Sample.request "POST" "/tables/users" (Ok JNull))))
   = BodyJson {| success := false;
                 data := None;
                 error := Some "Request body is required";
                 meta := None |}) /\
  (indexed_body (JArr [JNum (Js.of_Z 1); JNum (Js.of_Z 2)]) ["0"; "1"]
     [JNum (Js.of_Z 1); JNum (Js.of_Z 2)] /\
   snd (fetch Sample.engine Sample.env Sample.array_create)
   = [CallRun (JStr "INSERT INTO users (0, 1) VALUES (?, ?)")
        [JNum (Js.of_Z 1); JNum (Js.of_Z 2)]]).
Proof.
  assert (spec_identifier "users") as Good
    by (apply isValidTableName_spec; reflexivity).
  split.
  - split; [constructor|].
    destruct (proj1 (non_object_body Sample.engine Sample.env
                       (Sample.request "POST" "/tables/users" (Ok JNull))
                       (CreateRecord "users") "users" JNull
                       (RM_create "users" eq_refl) eq_refl eq_refl Good
                       eq_refl) RS_null) as (Hs & Hb & _).
    now split.
  - split; [apply (IB_array (JNum (Js.of_Z 1)) [JNum (Js.of_Z 2)])|].
    apply (proj1 (proj2 (non_object_body Sample.engine Sample.env
                           Sample.array_create (CreateRecord "users") "users"
                           (JArr [JNum (Js.of_Z 1); JNum (Js.of_Z 2)])
                           (RM_create "users" eq_refl) eq_refl eq_refl Good
                           eq_refl)
                    ["0"; "1"] [JNum (Js.of_Z 1); JNum (Js.of_Z 2)]
                    (IB_array (JNum (Js.of_Z 1)) [JNum (Js.of_Z 2)]))
             eq_refl).
Defined.

(** C10.  For [POST /tables/{table}] and [PUT /tables/{table}/{id}] with
    a table name that fails the identifier grammar the answer has status
    400 and the envelope [{success: false, error: "Invalid table name"}]
    whatever the request body: the table name is checked before the body
    is read, so an absent or malformed body gives this 400 and no
    body-related error, and no database call is made. *)
Theorem invalid_table_precedes_body (engine : Engine) (env : Env)
  (request : Request) (r : Route) (t : string) :
  route_matches (method request) (pathname request) r ->
  writes_body r = true ->
  table_of r = Some t ->
  ~ spec_identifier t ->
  forall b : outcome jsval,
    status (fst (fetch engine env (with_json request b))) = 400%Z /\
    body (fst (fetch engine env (with_json request b)))
    = BodyJson {| success := false;
                  data := None;
                  error := Some "Invalid table name";
                  meta := None |} /\
    snd (fetch engine env (with_json request b)) = [].
Proof.
  intros H Hw Ht Hv b.
  assert (isValidTableName t = false) as Hf.
  { destruct (isValidTableName t) eqn:E; [|reflexivity].
    elim Hv. now apply isValidTableName_spec. }
  rewrite (fetch_on_route engine env (with_json request b) r H).
  rewrite (serve_invalid_table engine env (with_json request b) r t H Ht Hf).
  repeat split.
Qed.

Lemma invalid_table_precedes_body_witness :
  route_matches "POST" "/tables/1users" (CreateRecord "1users") /\
  ~ spec_identifier "1users" /\
  status (fst (fetch Sample.engine Sample.env
                 (with_json Sample.bad_create (Throw "Unexpected token"))))
  = 400%Z /\
  body (fst (fetch Sample.engine Sample.env
               (with_json Sample.bad_create (Throw "Unexpected token"))))
  = BodyJson {| success := false;
                data := None;
                error := Some "Invalid table name";
                meta := None |} /\
  snd (fetch Sample.engine Sample.env
         (with_json Sample.bad_create (Throw "Unexpected token"))) = [].
Proof.
  assert (~ spec_identifier "1users") as Bad.
  { intros (_ & _ & H). apply (H "1"%char "users" eq_refl). simpl. tauto. }
  split; [apply (RM_create "1users"); reflexivity|]. split; [exact Bad|].
  apply (invalid_table_precedes_body Sample.engine Sample.env Sample.bad_create
           (CreateRecord "1users") "1users"
           (RM_create "1users" eq_refl) eq_refl eq_refl Bad).
Defined.


(** * Further properties of the handler *)

(** ** Responses *)

(** X1.  Every response carries the three CORS headers
    [Access-Control-Allow-Origin: *],
    [Access-Control-Allow-Methods: GET, POST, PUT, DELETE, OPTIONS] and
    [Access-Control-Allow-Headers: Content-Type], followed by exactly the
    content type of its body: [application/json] for a JSON envelope,
    [text/html] for the documentation page, none for the empty preflight
    answer. *)
Theorem response_headers_shape (engine : Engine) (env : Env)
  (request : Request) :
  response_headers (fst (fetch engine env request))
  = ([ ("Access-Control-Allow-Origin", "*");
       ("Access-Control-Allow-Methods", "GET, POST, PUT, DELETE, OPTIONS");
       ("Access-Control-Allow-Headers", "Content-Type") ]
     ++ match body (fst (fetch engine env request)) with
        | BodyJson _ => [("Content-Type", "application/json")]
        | BodyDocs => [("Content-Type", "text/html")]
        | BodyNull => []
        end)%list.
Proof.
  rewrite fetch_route_of.
  destruct (route_of (method request) (pathname request)) as [r|];
    [|reflexivity].
  destruct r; unfold_handlers;
    repeat (match goal with
            | |- context [match ?x with _ => _ end] =>
                lazymatch x with
                | context [match _ with _ => _ end] => fail
                | body _ => fail
                | _ => destruct x eqn:?
                end
            end; cbv beta iota);
    reflexivity.
Qed.

(** X2.  The documentation page is served exactly for [GET /], and the
    empty body exactly for the method [OPTIONS]; every other request is
    answered with a JSON envelope. *)
Theorem body_kinds (engine : Engine) (env : Env) (request : Request) :
  (body (fst (fetch engine env request)) = BodyDocs <->
   method request = "GET" /\ pathname request = "/") /\
  (body (fst (fetch engine env request)) = BodyNull <->
   method request = "OPTIONS").
Proof.
  split; split.
  - rewrite fetch_route_of.
    destruct (route_of (method request) (pathname request)) as [r|] eqn:E;
      [|discriminate].
    apply route_of_sound in E.
    destruct r; unfold_handlers; split_cases; simpl; intros H;
      try discriminate H.
    inversion E. now split.
  - intros [Hm Hp]. rewrite fetch_route_of, Hm, Hp. reflexivity.
  - rewrite fetch_route_of.
    destruct (route_of (method request) (pathname request)) as [r|] eqn:E;
      [|discriminate].
    apply route_of_sound in E.
    destruct r; unfold_handlers; split_cases; simpl; intros H;
      try discriminate H.
    now inversion E.
  - intros Hm. unfold fetch. rewrite Hm. reflexivity.
Qed.

(** X3.  The status of a response is one of 200, 201, 400, 404 and 500,
    and 201 is given only by a create whose INSERT the binding
    resolved. *)
Theorem status_codes (engine : Engine) (env : Env) (request : Request) :
  In (status (fst (fetch engine env request))) [200; 201; 400; 404; 500]%Z /\
  (status (fst (fetch engine env request)) = 201%Z ->
   exists t b res,
     route_matches (method request) (pathname request) (CreateRecord t) /\
     json request = Ok b /\
     exec_run (DB env) (JStr (insert_sql t (Js.keys b))) (Js.values b)
     = Ok res).
Proof.
  split.
  - rewrite fetch_route_of.
    destruct (route_of (method request) (pathname request)) as [r|];
      [|simpl; auto].
    destruct r; unfold_handlers; split_cases; simpl; auto 10.
  - rewrite fetch_route_of.
    destruct (route_of (method request) (pathname request)) as [r|] eqn:E;
      [|discriminate].
    apply route_of_sound in E. pose proof (route_params _ _ _ E) as P.
    destruct r; unfold_handlers;
      try match type of P with
          | _ /\ _ => destruct P as [P2 P3]; rewrite P2, P3
          | _ = _ => rewrite P
          end;
      split_cases; simpl; intros H; try discriminate H.
    eexists _, _, _. split; [exact E|]. split; [reflexivity | eassumption].
Qed.

(** X4.  A JSON answer with status 200 or 201 means that exactly one
    statement was executed and that the binding resolved it. *)
Theorem success_means_one_resolved_call (engine : Engine) (env : Env)
  (request : Request) (j : JsonResponse) :
  body (fst (fetch engine env request)) = BodyJson j ->
  (status (fst (fetch engine env request)) < 400)%Z ->
  exists c, snd (fetch engine env request) = [c] /\ call_error env c = None.
Proof.
  rewrite fetch_route_of.
  destruct (route_of (method request) (pathname request)) as [r|];
    [|simpl; intros _ H; lia].
  destruct r; unfold_handlers; split_cases; simpl; intros Hb Hs;
    try discriminate Hb; try lia;
    eexists; (split; [reflexivity|]); simpl;
    match goal with
    | E : _ = Ok _ |- _ => now rewrite E
    end.
Qed.

Lemma success_means_one_resolved_call_witness :
  exists c,
    snd (fetch Sample.engine Sample.env Cases.create_user) = [c] /\
    call_error Sample.env c = None.
Proof.
  apply (success_means_one_resolved_call Sample.engine Sample.env
           Cases.create_user
           (with_data true
              (JObj [("lastRowId", JNum (Js.of_Z 7));
                     ("changes", JNum (Js.of_Z 1))]))).
  - reflexivity.
  - reflexivity.
Defined.

(** X5.  The [error] member of a response is never the empty string. *)
Theorem error_member_never_empty (engine : Engine) (env : Env)
  (request : Request) :
  response_error (fst (fetch engine env request)) <> Some EmptyString.
Proof.
  rewrite fetch_route_of.
  destruct (route_of (method request) (pathname request)) as [r|];
    [|discriminate].
  destruct r; unfold_handlers; split_cases; unfold response_error; simpl;
    try discriminate;
    match goal with
    | |- Some (error_text ?m) <> _ => destruct m; discriminate
    end.
Qed.

(** X6.  The request body is read by [POST] and [PUT] only: under any
    other method the answer and the statement executed are the same
    whatever [request.json()] would give, a malformed body included. *)
Theorem body_read_by_writes_only (engine : Engine) (env : Env)
  (request : Request) (b : outcome jsval) :
  method request <> "POST" ->
  method request <> "PUT" ->
  fetch engine env (with_json request b) = fetch engine env request.
Proof.
  intros Hpost Hput. apply String.eqb_neq in Hpost, Hput.
  unfold fetch, routes. cbn [method pathname with_json].
  rewrite Hpost, Hput, !andb_false_r. reflexivity.
Qed.

Lemma body_read_by_writes_only_witness :
  fetch Sample.engine Sample.env
    (with_json Sample.get_one (Throw "Unexpected token"))
  = fetch Sample.engine Sample.env Sample.get_one.
Proof.
  apply (body_read_by_writes_only Sample.engine Sample.env Sample.get_one).
  - discriminate.
  - discriminate.
Defined.

(** X7.  A request whose method is none of GET, POST, PUT, DELETE and
    OPTIONS is answered 404 "Route not found" on every path, without a
    database call. *)
Theorem unsupported_method_not_found (engine : Engine) (env : Env)
  (request : Request) :
  ~ In (method request) ["GET"; "POST"; "PUT"; "DELETE"; "OPTIONS"] ->
  fetch engine env request = (route_not_found, []).
Proof.
  intros H. rewrite fetch_route_of. unfold route_of.
  assert (forall m, In m ["GET"; "POST"; "PUT"; "DELETE"; "OPTIONS"] ->
                    (method request =? m) = false) as F.
  { intros m Hm. apply String.eqb_neq. intros E. apply H. now rewrite E. }
  rewrite (F "OPTIONS"), (F "GET"), (F "POST"), (F "PUT"), (F "DELETE")
    by (simpl; auto 10).
  now rewrite !andb_false_r.
Qed.

Lemma unsupported_method_not_found_witness :
  fetch Sample.engine Sample.env Cases.patch_user = (route_not_found, []).
Proof.
  apply (unsupported_method_not_found Sample.engine Sample.env
           Cases.patch_user).
  simpl. intros [H | [H | [H | [H | [H | []]]]]]; discriminate H.
Defined.

(** ** Routing *)

Section RoutingFacts.

Lemma split_nonempty (s : string) : Str.split s <> [].
Proof.
  destruct s as [|c s]; simpl; [discriminate|].
  destruct (Str.is_slash c); [discriminate|].
  destruct (Str.split s); discriminate.
Qed.

Lemma join_cons_char (sep : string) (c : ascii) (p : string)
  (ps : list string) :
  Str.join sep (String c p :: ps) = String c (Str.join sep (p :: ps)).
Proof. destruct ps; reflexivity. Qed.

Lemma split_app_slash (p : string) :
  Str.split (p ++ "/") = (Str.split p ++ [EmptyString])%list.
Proof.
  induction p as [|c p IH]; simpl; [reflexivity|].
  destruct (Str.is_slash c); rewrite IH; [reflexivity|].
  pose proof (split_nonempty p) as N.
  destruct (Str.split p) as [|h tl]; [now elim N | reflexivity].
Qed.

Lemma routed_pieces (m path : string) (r : Route) :
  route_matches m path r ->
  r <> Preflight ->
  (List.length (Str.split path) <= 4)%nat /\
  (path = "/" \/ List.last (Str.split path) "/" <> EmptyString).
Proof.
  intros H Hr. destruct H as [ | | |t Ht|t id Ht Hid|t Ht|t id Ht Hid
                              |t id Ht Hid| ];
    try (now elim Hr);
    try (split; [simpl; lia | first [now left | right; discriminate]]);
    try (rewrite (split_collection _ Ht); split; [simpl; lia|]; right;
         simpl; apply segment_parts in Ht; tauto);
    rewrite (split_item _ _ Ht Hid); (split; [simpl; lia|]); right;
    simpl; apply segment_parts in Hid; tauto.
Qed.

Lemma valid_is_segment (t : string) :
  isValidTableName t = true -> Str.segment t = true.
Proof.
  destruct t as [|c t]; [discriminate|]. intros H.
  apply andb_prop in H as [Hc Ht].
  assert (forall a, Ident.tail_char a = true -> Str.not_slash a = true) as F.
  { intros a Ha. unfold Str.not_slash. apply negb_true_iff.
    destruct (Str.is_slash a) eqn:S; [|reflexivity].
    apply is_slash_eq in S. subst a. discriminate Ha. }
  apply segment_parts. split; [discriminate|]. simpl.
  apply andb_true_intro. split.
  - apply F. now apply head_char_iff in Hc.
  - apply all_chars_forall. intros a Ha. apply F.
    now apply (proj1 (all_chars_forall _ _) Ht).
Qed.

End RoutingFacts.

(** X8.  At most one of the five path tests of [fetch] succeeds on a
    path, so the order in which the routes are tried decides nothing. *)
Theorem path_tests_exclusive (path : string) :
  (List.length (filter (fun b : bool => b) (path_tests path)) <= 1)%nat.
Proof.
  unfold path_tests.
  destruct (String.eqb_spec path "/tables") as [->|_]; [simpl; lia|].
  destruct (String.eqb_spec path "/query") as [->|_]; [simpl; lia|].
  destruct (String.eqb_spec path "/") as [->|_]; [simpl; lia|].
  destruct (matches_collection path) eqn:C;
    destruct (matches_item path) eqn:I; simpl; try lia.
  apply matches_collection_iff in C as (t & -> & Ht).
  rewrite (collection_not_item _ Ht) in I. discriminate I.
Qed.

(** X9.  Splitting a path on the slash loses nothing: joining the pieces
    with a slash gives the path back. *)
Theorem join_split (s : string) : Str.join "/" (Str.split s) = s.
Proof.
  induction s as [|c s IH]; simpl; [reflexivity|].
  destruct (Str.is_slash c) eqn:S.
  - apply is_slash_eq in S. subst c.
    pose proof (split_nonempty s) as N.
    destruct (Str.split s) as [|h tl]; [now elim N|].
    change (Str.join "/" (EmptyString :: h :: tl))
      with (String Str.slash (Str.join "/" (h :: tl))).
    now rewrite IH.
  - pose proof (split_nonempty s) as N.
    destruct (Str.split s) as [|h tl]; [now elim N|].
    now rewrite join_cons_char, IH.
Qed.

(** X10.  A path of more than three pieces after the leading slash, such
    as [/tables/users/7/posts], matches no route: under every method but
    OPTIONS it is answered 404 "Route not found" without a database
    call. *)
Theorem long_path_not_found (engine : Engine) (env : Env)
  (request : Request) :
  method request <> "OPTIONS" ->
  (4 < List.length (Str.split (pathname request)))%nat ->
  fetch engine env request = (route_not_found, []).
Proof.
  intros Hm Hl. apply fetch_off_route. intros r Hr.
  assert (r <> Preflight) as Hp.
  { intros ->. inversion Hr. now apply Hm. }
  destruct (routed_pieces _ _ _ Hr Hp) as [Hle _]. lia.
Qed.

Lemma long_path_not_found_witness :
  fetch Sample.engine Sample.env Cases.deep = (route_not_found, []).
Proof.
  apply (long_path_not_found Sample.engine Sample.env Cases.deep).
  - discriminate.
  - simpl. lia.
Defined.

(** X11.  A trailing slash is not ignored: a path that ends in a slash,
    other than [/] itself, matches no route, so [/tables/users/] is
    answered 404 "Route not found" without a database call. *)
Theorem trailing_slash_not_found (engine : Engine) (env : Env)
  (request : Request) (p : string) :
  method request <> "OPTIONS" ->
  pathname request = p ++ "/" ->
  p <> EmptyString ->
  fetch engine env request = (route_not_found, []).
Proof.
  intros Hm Hpath Hne. apply fetch_off_route. intros r Hr.
  assert (r <> Preflight) as Hp.
  { intros ->. inversion Hr. now apply Hm. }
  destruct (routed_pieces _ _ _ Hr Hp) as [_ [Hroot | Hlast]].
  - rewrite Hpath in Hroot. destruct p as [|c p]; [now elim Hne|].
    inversion Hroot. now destruct p.
  - apply Hlast. rewrite Hpath, split_app_slash. apply last_last.
Qed.

Lemma trailing_slash_not_found_witness :
  fetch Sample.engine Sample.env Cases.trailing = (route_not_found, []).
Proof.
  apply (trailing_slash_not_found Sample.engine Sample.env Cases.trailing
           "/tables/users").
  - discriminate.
  - reflexivity.
  - discriminate.
Defined.

(** X12.  Every name the validator accepts can be addressed: it contains
    no slash, so both path patterns match the paths built from it and
    the piece the handlers take from the split path is that very name,
    with the id beside it on an item path. *)
Theorem valid_name_is_addressable (t : string) :
  isValidTableName t = true ->
  matches_collection ("/tables/" ++ t) = true /\
  part ("/tables/" ++ t) 2 = t /\
  forall id, Str.segment id = true ->
    matches_item ("/tables/" ++ t ++ "/" ++ id) = true /\
    part ("/tables/" ++ t ++ "/" ++ id) 2 = t /\
    part_value ("/tables/" ++ t ++ "/" ++ id) 3 = JStr id.
Proof.
  intros H. apply valid_is_segment in H.
  split; [now apply matches_collection_intro|].
  split; [now apply part_collection|].
  intros id Hid. split; [now apply matches_item_intro|].
  destruct (part_item _ _ H Hid) as (P2 & _ & P3). now split.
Qed.

Lemma valid_name_is_addressable_witness :
  matches_collection "/tables/users" = true /\
  part "/tables/users" 2 = "users".
Proof.
  split; apply (valid_name_is_addressable "users"); reflexivity.
Defined.

(** ** The record routes, end to end *)

Section RecordRoutes.

Variable engine : Engine.
Variable env : Env.

Lemma item_route (request : Request) (m t id : string) (r : Route) :
  method request = m ->
  pathname request = "/tables/" ++ t ++ "/" ++ id ->
  isValidTableName t = true ->
  Str.segment id = true ->
  route_matches m (item_path t id) r ->
  fetch engine env request = serve engine env r request /\
  part (pathname request) 2 = t /\
  part_value (pathname request) 3 = JStr id.
Proof.
  intros Hm Hp Hv Hid Hr. pose proof (valid_is_segment _ Hv) as Ht.
  split.
  - apply fetch_on_route. now rewrite Hm, Hp.
  - rewrite Hp. destruct (part_item _ _ Ht Hid) as (P2 & _ & P3). now split.
Qed.

Lemma collection_route (request : Request) (m t : string) (r : Route) :
  method request = m ->
  pathname request = "/tables/" ++ t ->
  isValidTableName t = true ->
  route_matches m (collection_path t) r ->
  fetch engine env request = serve engine env r request /\
  part (pathname request) 2 = t.
Proof.
  intros Hm Hp Hv Hr. pose proof (valid_is_segment _ Hv) as Ht.
  split.
  - apply fetch_on_route. now rewrite Hm, Hp.
  - rewrite Hp. now apply part_collection.
Qed.

Lemma object_has_columns (props : list (string * jsval)) :
  props <> [] -> body_missing (JObj props) = false.
Proof. destruct props; [intros H; now elim H | reflexivity]. Qed.

End RecordRoutes.

(** X13.  [GET /tables/{table}/{id}] with a valid table name executes
    [SELECT * FROM {table} WHERE id = ?] with the id bound as the string
    it has in the path, and answers 200 with the row as [data], 404
    "Record not found" when there is no row, and 500 with the binding's
    message when the execution throws. *)
Theorem get_by_id (engine : Engine) (env : Env) (request : Request)
  (t id : string) :
  method request = "GET" ->
  pathname request = "/tables/" ++ t ++ "/" ++ id ->
  isValidTableName t = true ->
  Str.segment id = true ->
  let sql := JStr ("SELECT * FROM " ++ t ++ " WHERE id = ?") in
  fetch engine env request
  = answer_of (exec_first (DB env) sql [JStr id]) (CallFirst sql [JStr id])
      (fun found =>
         match found with
         | Some row => jsonResponse (with_data true (JObj row)) corsHeaders 200
         | None => jsonResponse (failure "Record not found") corsHeaders 404
         end).
Proof.
  intros Hm Hp Hv Hid sql. subst sql.
  destruct (item_route engine env request "GET" t id (GetRecord t id)
              Hm Hp Hv Hid) as (-> & P2 & P3).
  { constructor; [now apply valid_is_segment | exact Hid]. }
  unfold_handlers. rewrite P2, P3, Hv. cbn [negb]. unfold answer_of.
  fold (select_one_sql t). split_cases; reflexivity.
Qed.

Lemma get_by_id_witness :
  fetch Sample.engine Sample.env Sample.get_one
  = (jsonResponse (failure "Record not found") corsHeaders 404,
     [CallFirst (JStr "SELECT * FROM users WHERE id = ?") [JStr "1"]]).
Proof.
  apply (get_by_id Sample.engine Sample.env Sample.get_one "users" "1");
    reflexivity.
Defined.

(** X14.  [DELETE /tables/{table}/{id}] with a valid table name executes
    [DELETE FROM {table} WHERE id = ?] with the id bound, and answers 404
    "Record not found" when no row changed, otherwise 200 with the number
    of changed rows, and 500 when the execution throws. *)
Theorem delete_by_id (engine : Engine) (env : Env) (request : Request)
  (t id : string) :
  method request = "DELETE" ->
  pathname request = "/tables/" ++ t ++ "/" ++ id ->
  isValidTableName t = true ->
  Str.segment id = true ->
  let sql := JStr ("DELETE FROM " ++ t ++ " WHERE id = ?") in
  fetch engine env request
  = answer_of (exec_run (DB env) sql [JStr id]) (CallRun sql [JStr id])
      (fun res =>
         if (changes (run_meta res) =? 0)%Z
         then jsonResponse (failure "Record not found") corsHeaders 404
         else jsonResponse
                (with_data (run_success res)
                   (JObj [("changes", JNum (Js.of_Z (changes (run_meta res))))]))
                corsHeaders 200).
Proof.
  intros Hm Hp Hv Hid sql. subst sql.
  destruct (item_route engine env request "DELETE" t id (DeleteRecord t id)
              Hm Hp Hv Hid) as (-> & P2 & P3).
  { constructor; [now apply valid_is_segment | exact Hid]. }
  unfold_handlers. rewrite P2, P3, Hv. cbn [negb]. unfold answer_of.
  fold (delete_sql t). split_cases; reflexivity.
Qed.

Lemma delete_by_id_witness :
  fetch Sample.engine Sample.env Cases.delete_user
  = (jsonResponse (with_data true (JObj [("changes", JNum (Js.of_Z 1))]))
       corsHeaders 200,
     [CallRun (JStr "DELETE FROM users WHERE id = ?") [JStr "7"]]).
Proof.
  apply (delete_by_id Sample.engine Sample.env Cases.delete_user "users" "7");
    reflexivity.
Defined.

(** X15.  [PUT /tables/{table}/{id}] with a valid table name and an
    object body that has at least one property executes
    [UPDATE {table} SET k1 = ?, k2 = ?, ... WHERE id = ?] with the
    property values bound in key order and the id bound last, and answers
    404 "Record not found" when no row changed, otherwise 200 with the
    number of changed rows, and 500 when the execution throws. *)
Theorem update_by_id (engine : Engine) (env : Env) (request : Request)
  (t id : string) (props : list (string * jsval)) :
  method request = "PUT" ->
  pathname request = "/tables/" ++ t ++ "/" ++ id ->
  isValidTableName t = true ->
  Str.segment id = true ->
  json request = Ok (JObj props) ->
  props <> [] ->
  let sql :=
    JStr ("UPDATE " ++ t ++ " SET "
          ++ Str.join ", " (map (fun p => fst p ++ " = ?") props)
          ++ " WHERE id = ?") in
  let binds := (map snd props ++ [JStr id])%list in
  fetch engine env request
  = answer_of (exec_run (DB env) sql binds) (CallRun sql binds)
      (fun res =>
         if (changes (run_meta res) =? 0)%Z
         then jsonResponse (failure "Record not found") corsHeaders 404
         else jsonResponse
                (with_data (run_success res)
                   (JObj [("changes", JNum (Js.of_Z (changes (run_meta res))))]))
                corsHeaders 200).
Proof.
  intros Hm Hp Hv Hid Hj Hne sql binds. subst sql binds.
  destruct (item_route engine env request "PUT" t id (UpdateRecord t id)
              Hm Hp Hv Hid) as (-> & P2 & P3).
  { constructor; [now apply valid_is_segment | exact Hid]. }
  unfold_handlers.
  rewrite P2, P3, Hv, Hj, (object_has_columns _ Hne). cbn [negb].
  unfold answer_of, update_sql. cbn [Js.keys Js.values].
  rewrite map_map. split_cases; reflexivity.
Qed.

Lemma update_by_id_witness :
  fetch Sample.engine Sample.env Cases.update_user
  = (jsonResponse (with_data true (JObj [("changes", JNum (Js.of_Z 1))]))
       corsHeaders 200,
     [CallRun (JStr "UPDATE users SET name = ?, email = ? WHERE id = ?")
        [JStr "A"; JStr "a@x.com"; JStr "7"]]).
Proof.
  apply (update_by_id Sample.engine Sample.env Cases.update_user "users" "7"
           Cases.users); try reflexivity.
  discriminate.
Defined.

(** X16.  [POST /tables/{table}] with a valid table name and an object
    body that has at least one property executes
    [INSERT INTO {table} (k1, k2, ...) VALUES (?, ?, ...)] with the
    property values bound in key order, and answers 201 with the
    binding's last row id and number of changed rows, or 500 when the
    execution throws. *)
Theorem create_record_end_to_end (engine : Engine) (env : Env)
  (request : Request) (t : string) (props : list (string * jsval)) :
  method request = "POST" ->
  pathname request = "/tables/" ++ t ->
  isValidTableName t = true ->
  json request = Ok (JObj props) ->
  props <> [] ->
  let sql :=
    JStr ("INSERT INTO " ++ t ++ " (" ++ Str.join ", " (map fst props)
          ++ ") VALUES (" ++ Str.join ", " (map (fun _ => "?") props) ++ ")") in
  let binds := map snd props in
  fetch engine env request
  = answer_of (exec_run (DB env) sql binds) (CallRun sql binds)
      (fun res =>
         jsonResponse
           (with_data (run_success res)
              (JObj [("lastRowId", JNum (Js.of_Z (last_row_id (run_meta res))));
                     ("changes", JNum (Js.of_Z (changes (run_meta res))))]))
           corsHeaders 201).
Proof.
  intros Hm Hp Hv Hj Hne sql binds. subst sql binds.
  destruct (collection_route engine env request "POST" t (CreateRecord t)
              Hm Hp Hv) as (-> & P2).
  { constructor. now apply valid_is_segment. }
  unfold_handlers.
  rewrite P2, Hv, Hj, (object_has_columns _ Hne). cbn [negb].
  unfold answer_of, insert_sql. cbn [Js.keys Js.values].
  rewrite map_map. split_cases; reflexivity.
Qed.

Lemma create_record_end_to_end_witness :
  fetch Sample.engine Sample.env Cases.create_user
  = (jsonResponse
       (with_data true
          (JObj [("lastRowId", JNum (Js.of_Z 7)); ("changes", JNum (Js.of_Z 1))]))
       corsHeaders 201,
     [CallRun (JStr "INSERT INTO users (name, email) VALUES (?, ?)")
        [JStr "A"; JStr "a@x.com"]]).
Proof.
  apply (create_record_end_to_end Sample.engine Sample.env Cases.create_user
           "users" Cases.users); try reflexivity.
  discriminate.
Defined.

(** ** Statements and their bind arguments *)

Section Placeholders.

Lemma count_char_app (c : ascii) (a b : string) :
  count_char c (a ++ b) = count_char c a + count_char c b.
Proof.
  induction a as [|x a IH]; simpl; [reflexivity|]. rewrite IH. lia.
Qed.

Lemma identifier_has_no_placeholder (s : string) :
  isValidTableName s = true -> count_char "?" s = 0.
Proof.
  assert (forall r, Str.all_chars Ident.tail_char r = true ->
                    count_char "?" r = 0) as F.
  { induction r as [|x r IH]; simpl; [reflexivity|]. intros H.
    apply andb_prop in H as [Hx Hr]. rewrite (IH Hr).
    destruct (Ascii.eqb_spec x "?") as [->|]; [discriminate Hx | reflexivity]. }
  destruct s as [|x s]; [discriminate|]. intros H.
  apply andb_prop in H as [Hx Hs]. simpl. rewrite (F _ Hs).
  apply head_char_iff in Hx as [Hx _].
  destruct (Ascii.eqb_spec x "?") as [->|]; [discriminate Hx | reflexivity].
Qed.

Lemma join_two (sep p p' : string) (rest : list string) :
  Str.join sep (p :: p' :: rest) = p ++ sep ++ Str.join sep (p' :: rest).
Proof. reflexivity. Qed.

Lemma count_join (c : ascii) (sep : string) (parts : list string) :
  count_char c (Str.join sep parts)
  = list_sum (map (count_char c) parts)
    + (List.length parts - 1) * count_char c sep.
Proof.
  induction parts as [|p rest IH]; [reflexivity|].
  destruct rest as [|p' rest].
  - simpl. lia.
  - rewrite join_two, !count_char_app, IH.
    cbn [map List.length]. unfold list_sum. cbn [fold_right].
    replace (S (S (List.length rest)) - 1) with (S (S (List.length rest) - 1))
      by lia.
    lia.
Qed.

Lemma sum_zero {A : Type} (f : A -> nat) (l : list A) :
  (forall x, In x l -> f x = 0) -> list_sum (map f l) = 0.
Proof.
  induction l as [|x l IH]; simpl; intros H; [reflexivity|].
  rewrite (H x), IH; auto.
Qed.

Lemma sum_one {A : Type} (f : A -> nat) (l : list A) :
  (forall x, In x l -> f x = 1) -> list_sum (map f l) = List.length l.
Proof.
  induction l as [|x l IH]; simpl; intros H; [reflexivity|].
  rewrite (H x), IH; auto.
Qed.

Lemma insert_placeholders (t : string) (columns : list string) :
  isValidTableName t = true ->
  forallb isValidTableName columns = true ->
  count_char "?" (insert_sql t columns) = List.length columns.
Proof.
  intros Ht Hc. unfold insert_sql.
  rewrite !count_char_app, !count_join, (identifier_has_no_placeholder _ Ht).
  rewrite map_map, length_map.
  rewrite (sum_zero (count_char "?") columns).
  - rewrite (sum_one (fun _ => count_char "?" "?") columns) by reflexivity.
    simpl. lia.
  - intros c Hin. apply identifier_has_no_placeholder.
    now apply (proj1 (forallb_forall _ _) Hc).
Qed.

Lemma update_placeholders (t : string) (columns : list string) :
  isValidTableName t = true ->
  forallb isValidTableName columns = true ->
  count_char "?" (update_sql t columns) = S (List.length columns).
Proof.
  intros Ht Hc. unfold update_sql.
  rewrite !count_char_app, !count_join, (identifier_has_no_placeholder _ Ht).
  rewrite map_map, length_map.
  rewrite (sum_one (fun col => count_char "?" (col ++ " = ?")) columns).
  - simpl. lia.
  - intros c Hin. rewrite count_char_app.
    rewrite (identifier_has_no_placeholder c); [reflexivity|].
    now apply (proj1 (forallb_forall _ _) Hc).
Qed.

Lemma chars_length (s : string) :
  List.length (Str.chars s) = String.length s.
Proof. induction s; simpl; congruence. Qed.

(** Every body has as many values as it has keys. *)
Lemma keys_values_length (b : jsval) :
  List.length (Js.keys b) = List.length (Js.values b).
Proof.
  destruct b as [| |flag|n|s|items|props]; simpl; try reflexivity.
  - now rewrite !length_map, length_seq, chars_length.
  - now rewrite length_map, length_seq.
  - now rewrite !length_map.
Qed.

End Placeholders.

(** X17.  When the keys of the body are identifiers, the statement a
    create or an update executes has exactly as many [?] placeholders as
    it is given bind arguments: one per column, and one more for the id
    of an update. *)
Theorem placeholders_match_binds (engine : Engine) (env : Env)
  (request : Request) (r : Route) (t : string) (b : jsval) :
  route_matches (method request) (pathname request) r ->
  writes_body r = true ->
  table_of r = Some t ->
  isValidTableName t = true ->
  json request = Ok b ->
  body_missing b = false ->
  forallb isValidTableName (Js.keys b) = true ->
  exists sql binds,
    snd (fetch engine env request) = [CallRun (JStr sql) binds] /\
    count_char "?" sql = List.length binds.
Proof.
  intros H Hw Ht Hv Hj Hb Hk.
  rewrite (write_executed engine env request r t H Hw Ht Hv b Hj Hb).
  eexists _, _. split; [reflexivity|].
  destruct r; try discriminate Hw; simpl in Ht; inversion Ht; subst;
    cbn [write_sql write_binds].
  - rewrite (insert_placeholders _ _ Hv Hk). apply keys_values_length.
  - rewrite (update_placeholders _ _ Hv Hk), length_app, keys_values_length.
    simpl. lia.
Qed.

Lemma placeholders_match_binds_witness :
  exists sql binds,
    snd (fetch Sample.engine Sample.env Cases.update_user)
    = [CallRun (JStr sql) binds] /\
    count_char "?" sql = List.length binds.
Proof.
  apply (placeholders_match_binds Sample.engine Sample.env Cases.update_user
           (UpdateRecord "users" "7") "users" (JObj Cases.users)).
  - apply (RM_update "users" "7"); reflexivity.
  - reflexivity.
  - reflexivity.
  - reflexivity.
  - reflexivity.
  - reflexivity.
  - reflexivity.
Defined.

(** X18.  The text of the statement a create or an update executes is
    determined by the path and the keys of the body alone: two bodies
    with the same keys give the same text, whatever their values, which
    only ever appear among the bind arguments. *)
Theorem statement_text_ignores_values (engine : Engine) (env : Env)
  (request : Request) (r : Route) (t : string) (b1 b2 : jsval) :
  route_matches (method request) (pathname request) r ->
  writes_body r = true ->
  table_of r = Some t ->
  isValidTableName t = true ->
  body_missing b1 = false ->
  body_missing b2 = false ->
  Js.keys b1 = Js.keys b2 ->
  map call_sql (snd (fetch engine env (with_json request (Ok b1))))
  = map call_sql (snd (fetch engine env (with_json request (Ok b2)))) /\
  map call_binds (snd (fetch engine env (with_json request (Ok b1))))
  = [write_binds r (Js.values b1)].
Proof.
  intros H Hw Ht Hv H1 H2 Hk.
  rewrite (write_executed engine env (with_json request (Ok b1)) r t
             H Hw Ht Hv b1 eq_refl H1).
  rewrite (write_executed engine env (with_json request (Ok b2)) r t
             H Hw Ht Hv b2 eq_refl H2).
  simpl. now rewrite Hk.
Qed.

Lemma statement_text_ignores_values_witness :
  map call_sql
    (snd (fetch Sample.engine Sample.env
            (with_json Cases.create_user (Ok (JObj Cases.users)))))
  = map call_sql
      (snd (fetch Sample.engine Sample.env
              (with_json Cases.create_user
                 (Ok (JObj [("name", JStr "'; DROP TABLE users; --");
                            ("email", JNull)]))))).
Proof.
  apply (statement_text_ignores_values Sample.engine Sample.env
           Cases.create_user (CreateRecord "users") "users"
           (JObj Cases.users)
           (JObj [("name", JStr "'; DROP TABLE users; --"); ("email", JNull)])).
  - apply (RM_create "users"); reflexivity.
  - reflexivity.
  - reflexivity.
  - reflexivity.
  - reflexivity.
  - reflexivity.
  - reflexivity.
Defined.

(** ** The raw query route *)

Section RawQuery.

Variable engine : Engine.
Variable env : Env.

Lemma query_route (request : Request) :
  method request = "POST" ->
  pathname request = "/query" ->
  fetch engine env request = guarded (raw_query engine env request).
Proof.
  intros Hm Hp.
  rewrite (fetch_on_route engine env request RawQuery); [reflexivity|].
  rewrite Hm, Hp. constructor.
Qed.

Lemma length_is_positive (n : nat) :
  Js.number_positive (Js.of_Z (Z.of_nat n)) = negb (n =? 0)%nat.
Proof. destruct n; reflexivity. Qed.

End RawQuery.

(** X19.  [POST /query] whose body has no usable [query] member (an
    empty object, an array, a number, a string, or a [query] that is
    empty, zero, false or null) is answered 400 "Query is required"
    without a database call. *)
Theorem raw_query_requires_query (engine : Engine) (env : Env)
  (request : Request) (b : jsval) :
  method request = "POST" ->
  pathname request = "/query" ->
  json request = Ok b ->
  Js.nullish b = false ->
  Js.truthy (Js.get b "query") = false ->
  fetch engine env request
  = (jsonResponse (failure "Query is required") corsHeaders 400, []).
Proof.
  intros Hm Hp Hj Hn Hq. rewrite (query_route engine env request Hm Hp).
  unfold_handlers. now rewrite Hj, Hn, Hq.
Qed.

Lemma raw_query_requires_query_witness :
  fetch Sample.engine Sample.env Cases.query_empty
  = (jsonResponse (failure "Query is required") corsHeaders 400, []).
Proof.
  apply (raw_query_requires_query Sample.engine Sample.env Cases.query_empty
           (JObj [])); reflexivity.
Defined.

(** X20.  [POST /query] with an object body passes its [query] member to
    the binding as it is, with no validation of any kind, bound to the
    elements of the [params] array in order, or to nothing when [params]
    is absent, null or empty; the rows and the metadata of the result
    are returned with status 200, and an execution error with 500. *)
Theorem raw_query_passes_through (engine : Engine) (env : Env)
  (request : Request) (props : list (string * jsval)) (items : list jsval) :
  method request = "POST" ->
  pathname request = "/query" ->
  json request = Ok (JObj props) ->
  Js.truthy (Js.lookup "query" props) = true ->
  Js.lookup "params" props = JArr items \/
  (Js.truthy (Js.lookup "params" props) = false /\ items = []) ->
  let sql := Js.lookup "query" props in
  fetch engine env request
  = answer_of (exec_all (DB env) sql items) (CallAll sql items)
      (fun res =>
         jsonResponse (with_data_meta (JArr (results res)) (all_meta res))
           corsHeaders 200).
Proof.
  intros Hm Hp Hj Hq Hparams sql. subst sql.
  rewrite (query_route engine env request Hm Hp).
  unfold_handlers. rewrite Hj. cbn [Js.nullish Js.get]. rewrite Hq.
  cbn [negb]. unfold answer_of.
  destruct Hparams as [Ha | [Hf ->]].
  - rewrite Ha. cbn [Js.truthy Js.length_of above_zero andb].
    rewrite length_is_positive.
    destruct items as [|x items]; cbn; split_cases; reflexivity.
  - rewrite Hf. cbn [andb]. split_cases; reflexivity.
Qed.

Lemma raw_query_passes_through_witness :
  fetch Sample.engine Sample.env Cases.query_like
  = (jsonResponse (with_data_meta (JArr []) (JObj [])) corsHeaders 200,
     [CallAll (JStr "SELECT * FROM users WHERE email LIKE ?")
        [JStr "%@example.com"]]).
Proof.
  apply (raw_query_passes_through Sample.engine Sample.env Cases.query_like
           Cases.select_like [JStr "%@example.com"]); try reflexivity.
  left. reflexivity.
Defined.

(** X21.  [POST /query] whose body cannot be parsed, or is the JSON
    [null], never reaches the database and is answered 500, not 400: the
    error member is the parser's message, or the engine's message for
    reading a property of [null]. *)
Theorem raw_query_unreadable_body (engine : Engine) (env : Env)
  (request : Request) :
  method request = "POST" ->
  pathname request = "/query" ->
  (forall msg, json request = Throw msg ->
     fetch engine env request
     = (jsonResponse (failure (error_text msg)) corsHeaders 500, [])) /\
  (json request = Ok JNull ->
     fetch engine env request
     = (jsonResponse
          (failure (error_text (nullish_property_message engine JNull)))
          corsHeaders 500, [])).
Proof.
  intros Hm Hp. rewrite (query_route engine env request Hm Hp).
  split; [intros msg Hj | intros Hj]; unfold_handlers; now rewrite Hj.
Qed.

Lemma raw_query_unreadable_body_witness :
  fetch Sample.engine Sample.env Cases.query_null
  = (jsonResponse
       (failure "Cannot read properties of null (reading 'query')")
       corsHeaders 500, []).
Proof.
  apply (proj2 (raw_query_unreadable_body Sample.engine Sample.env
                  Cases.query_null eq_refl eq_refl)).
  reflexivity.
Defined.

(** X22.  [POST /query] does not insist that [params] be an array: a
    non-empty string is spread into its characters, each bound as a
    one-character string, and a number, [true], or an object without a
    [length] member is silently ignored, the statement being executed
    with no bind arguments. *)
Theorem raw_query_params_shapes (engine : Engine) (env : Env)
  (request : Request) (props : list (string * jsval)) :
  method request = "POST" ->
  pathname request = "/query" ->
  json request = Ok (JObj props) ->
  Js.truthy (Js.lookup "query" props) = true ->
  let sql := Js.lookup "query" props in
  (forall s, Js.lookup "params" props = JStr s -> s <> EmptyString ->
     snd (fetch engine env request)
     = [CallAll sql (map JStr (Str.chars s))]) /\
  (forall p, Js.lookup "params" props = p ->
     Js.length_of p = JUndefined ->
     snd (fetch engine env request) = [CallAll sql []]).
Proof.
  intros Hm Hp Hj Hq sql. subst sql.
  rewrite (query_route engine env request Hm Hp).
  unfold_handlers. rewrite Hj. cbn [Js.nullish Js.get]. rewrite Hq.
  cbn [negb]. split.
  - intros s Hs Hne. rewrite Hs.
    destruct s as [|c s]; [now elim Hne|].
    cbn [Js.truthy Str.nonempty Js.length_of above_zero andb].
    rewrite length_is_positive. cbn. split_cases; reflexivity.
  - intros p Hpar Hlen. rewrite Hpar, Hlen.
    cbn [above_zero]. rewrite andb_false_r. split_cases; reflexivity.
Qed.

Lemma raw_query_params_shapes_witness :
  snd (fetch Sample.engine Sample.env
         (Sample.request "POST" "/query"
            (Ok (JObj [("query", JStr "SELECT ?, ?"); ("params", JStr "ab")]))))
  = [CallAll (JStr "SELECT ?, ?") [JStr "a"; JStr "b"]].
Proof.
  apply (proj1 (raw_query_params_shapes Sample.engine Sample.env
                  (Sample.request "POST" "/query"
                     (Ok (JObj [("query", JStr "SELECT ?, ?");
                                ("params", JStr "ab")])))
                  [("query", JStr "SELECT ?, ?"); ("params", JStr "ab")]
                  eq_refl eq_refl eq_refl eq_refl) "ab").
  - reflexivity.
  - discriminate.
Defined.

(** ** Numbers in the query string *)

Section Decimal.

Lemma digits_of_uint (d : Decimal.uint) (acc : nat) :
  ParseInt.digits 10 (Some (Z.of_nat acc)) (NilEmpty.string_of_uint d)
  = Some (Z.of_nat (Nat.of_uint_acc d acc)).
Proof.
  revert acc.
  induction d as [|d IH|d IH|d IH|d IH|d IH|d IH|d IH|d IH|d IH|d IH];
    intros acc;
    cbn [NilEmpty.string_of_uint ParseInt.digits Nat.of_uint_acc];
    [reflexivity|..];
    match goal with
    | |- context [ParseInt.digit 10 ?c] =>
        let v := eval vm_compute in (ParseInt.digit 10 c) in
        change (ParseInt.digit 10 c) with v
    end;
    cbv iota beta; rewrite <- IH; do 3 f_equal;
    rewrite Nat.tail_mul_spec; lia.
Qed.

Lemma of_integer_zero : Js.of_integer 0 = Js.of_Z 0.
Proof. reflexivity. Qed.

Lemma parseInt_uint (d : Decimal.uint) :
  d <> Decimal.Nil ->
  ParseInt.parseInt (NilEmpty.string_of_uint d)
  = Js.of_integer (Z.of_nat (Nat.of_uint d)).
Proof.
  intros Hd.
  destruct d as [|d|d|d|d|d|d|d|d|d|d]; [now elim Hd|..].
  1: destruct d as [|d|d|d|d|d|d|d|d|d|d].
  all: unfold ParseInt.parseInt, Nat.of_uint; cbn [NilEmpty.string_of_uint].
  all: simpl.
  all: try reflexivity.
  all: match goal with
       | |- context [ParseInt.digits 10 (Some ?k) _] =>
           let n := eval vm_compute in (Z.to_nat k) in
           change (Some k) with (Some (Z.of_nat n))
       end;
       rewrite digits_of_uint; cbv iota beta;
       match goal with
       | |- (if (?z =? 0)%Z then _ else _) = _ =>
           destruct (Z.eqb_spec z 0) as [E|E];
           [ transitivity (Js.of_integer z); [now rewrite E | reflexivity]
           | f_equal; transitivity z; [destruct z; reflexivity | reflexivity] ]
       end.
Qed.

Lemma to_uint_not_nil (n : nat) : Nat.to_uint n <> Decimal.Nil.
Proof.
  rewrite <- (Unsigned.of_to n) at 1. rewrite Unsigned.to_of.
  apply unorm_nonnil.
Qed.

Lemma of_nat_nonempty (n : nat) : Str.of_nat n <> EmptyString.
Proof.
  unfold Str.of_nat. pose proof (to_uint_not_nil n) as H.
  destruct (Nat.to_uint n); [now elim H | ..]; discriminate.
Qed.

Lemma parseInt_of_nat (n : nat) :
  ParseInt.parseInt (Str.of_nat n) = Js.of_integer (Z.of_nat n).
Proof.
  unfold Str.of_nat. rewrite (parseInt_uint _ (to_uint_not_nil n)).
  now rewrite Unsigned.of_to.
Qed.

End Decimal.

(** ** Rounding to a double *)

Section Rounding.

Local Open Scope Z_scope.

Lemma of_integer_exact (z : Z) :
  Z.abs z <= 9007199254740992 -> Js.of_integer z = Js.of_Z z.
Proof.
  intros H. unfold Js.of_integer.
  destruct (Z.leb_spec (Z.log2 (Z.abs z) + 1) 53) as [L|L]; [reflexivity|].
  assert (9007199254740992 <= Z.abs z) as G.
  { assert (0 < Z.abs z) as P.
    { destruct (Z.eq_dec (Z.abs z) 0) as [E|E];
        [rewrite E in L; simpl in L|]; lia. }
    pose proof (Z.log2_spec _ P) as [S _].
    assert (2 ^ 53 <= 2 ^ Z.log2 (Z.abs z)) by (apply Z.pow_le_mono_r; lia).
    change (2 ^ 53) with 9007199254740992 in *. lia. }
  assert (z = 9007199254740992 \/ z = - 9007199254740992) as [-> | ->] by lia;
    reflexivity.
Qed.

(** [of_integer] rounds to nearest, ties to even, at the spacing of the
    doubles of the magnitude of its argument. *)
Lemma of_integer_rounds (z : Z) :
  let e := Z.max 0 (Z.log2 (Z.abs z) - 52) in
  exists m,
    0 <= m <= 9007199254740992 /\
    2 * Z.abs (Z.abs z - m * 2 ^ e) <= 2 ^ e /\
    (2 * Z.abs (Z.abs z - m * 2 ^ e) = 2 ^ e -> Z.even m = true) /\
    Js.of_integer z
    = if 2 ^ 1024 <=? m * 2 ^ e then Infinity (z <? 0)
      else Js.of_Z (Z.sgn z * (m * 2 ^ e)).
Proof.
  intros e. subst e. unfold Js.of_integer.
  set (a := Z.abs z).
  destruct (Z.leb_spec (Z.log2 a + 1) 53) as [L|L].
  - rewrite Z.max_l by lia. exists a.
    assert (a < 9007199254740992) as B.
    { destruct (Z.eq_dec a 0) as [E|E]; [lia|].
      assert (0 < a) as P by (subst a; lia).
      pose proof (Z.log2_spec _ P) as [_ S].
      assert (2 ^ Z.succ (Z.log2 a) <= 2 ^ 53) by (apply Z.pow_le_mono_r; lia).
      change (2 ^ 53) with 9007199254740992 in *. lia. }
    change (2 ^ 0) with 1. rewrite Z.mul_1_r, Z.sub_diag.
    split; [subst a; lia|]. split; [simpl; lia|]. split; [simpl; lia|].
    destruct (Z.leb_spec (2 ^ 1024) a) as [G|G].
    + assert (2 ^ 53 <= 2 ^ 1024) by (apply Z.pow_le_mono_r; lia).
      change (2 ^ 53) with 9007199254740992 in *. lia.
    + subst a. now rewrite Z.mul_comm, Z.abs_sgn.
  - assert (0 < a) as P.
    { destruct (Z.eq_dec a 0) as [E|E];
        [rewrite E in L; simpl in L|subst a]; lia. }
    rewrite Z.max_r by lia.
    replace (Z.log2 a + 1 - 53) with (Z.log2 a - 52) by lia.
    set (e := Z.log2 a - 52). assert (1 <= e) as He by (subst e; lia).
    set (p := 2 ^ (e - 1)).
    assert (2 ^ e = 2 * p) as Hp.
    { subst p. rewrite <- Z.pow_succ_r by lia. f_equal. lia. }
    assert (0 < p) as Pp by (subst p; apply Z.pow_pos_nonneg; lia).
    rewrite Hp.
    pose proof (Z.div_mod a (2 * p) ltac:(lia)) as D.
    pose proof (Z.mod_pos_bound a (2 * p) ltac:(lia)) as R.
    set (q := a / (2 * p)) in *. set (r := a mod (2 * p)) in *.
    assert (0 <= q < 9007199254740992) as Q.
    { pose proof (Z.log2_spec _ P) as [_ S].
      replace (Z.succ (Z.log2 a)) with (53 + e) in S by (subst e; lia).
      rewrite Z.pow_add_r, Hp in S by lia.
      change (2 ^ 53) with 9007199254740992 in S.
      split; [apply Z.div_pos; lia|]. nia. }
    destruct ((p <? r) || ((r =? p) && Z.odd q)) eqn:C.
    + exists (q + 1). split; [lia|].
      assert (p <= r) as Hr.
      { apply orb_true_iff in C as [C|C]; [apply Z.ltb_lt in C; lia|].
        apply andb_prop in C as [C _]. apply Z.eqb_eq in C. lia. }
      replace (a - (q + 1) * (2 * p)) with (- (2 * p - r)) by lia.
      rewrite Z.abs_opp, Z.abs_eq by lia.
      split; [lia|]. split; [|reflexivity].
      intros T. assert (r = p) as E by lia.
      apply orb_true_iff in C as [C|C]; [apply Z.ltb_lt in C; lia|].
      apply andb_prop in C as [_ C].
      rewrite Z.add_1_r, Z.even_succ. exact C.
    + exists q. split; [lia|].
      apply orb_false_iff in C as [C1 C2]. apply Z.ltb_ge in C1.
      replace (a - q * (2 * p)) with r by lia. rewrite Z.abs_eq by lia.
      split; [lia|]. split; [|reflexivity].
      intros T. assert (r = p) as E by lia.
      apply andb_false_iff in C2 as [C2|C2]; [apply Z.eqb_neq in C2; lia|].
      rewrite <- Z.negb_odd, C2. reflexivity.
Qed.

Lemma of_integer_rounds_natural (n : nat) :
  let z := Z.of_nat n in
  let e := Z.max 0 (Z.log2 z - 52) in
  exists m,
    0 <= m <= 9007199254740992 /\
    2 * Z.abs (z - m * 2 ^ e) <= 2 ^ e /\
    (2 * Z.abs (z - m * 2 ^ e) = 2 ^ e -> Z.even m = true) /\
    Js.of_integer z
    = if 2 ^ 1024 <=? m * 2 ^ e then Infinity false
      else Finite (inject_Z (m * 2 ^ e)).
Proof.
  intros z e. subst e.
  destruct (of_integer_rounds z) as (m & Hm & He & Ht & Hv).
  assert (Z.abs z = z) as A by (subst z; lia). rewrite A in *.
  exists m. split; [exact Hm|]. split; [exact He|]. split; [exact Ht|].
  rewrite Hv.
  assert ((z <? 0) = false) as -> by (apply Z.ltb_ge; subst z; lia).
  destruct (2 ^ 1024 <=? m * 2 ^ Z.max 0 (Z.log2 z - 52)); [reflexivity|].
  unfold Js.of_Z. do 2 f_equal.
  destruct (Z.eq_dec z 0) as [E|E].
  - rewrite E in *. change (Z.max 0 (Z.log2 0 - 52)) with 0 in *.
    change (2 ^ 0) with 1 in *. rewrite Z.mul_1_r in *.
    assert (m = 0) by lia. subst m. reflexivity.
  - rewrite Z.sgn_pos by (subst z; lia). lia.
Qed.

End Rounding.

Example parseInt_rounds_like_a_double :
  ParseInt.parseInt "9007199254740993" = Js.of_Z 9007199254740992 /\
  ParseInt.parseInt "9007199254740995" = Js.of_Z 9007199254740996 /\
  ParseInt.parseInt "-9007199254740993" = Js.of_Z (-9007199254740992) /\
  ParseInt.parseInt "18446744073709551615" = Js.of_Z 18446744073709551616 /\
  ParseInt.parseInt "-0" = NegativeZero /\
  ParseInt.parseInt "0" = Js.of_Z 0.
Proof. repeat split. Qed.

Example parseInt_overflows_to_infinity :
  ParseInt.parseInt
    "1000000000000000000000000000000000000000000000000000000000000000000000000000000000000000000000000000000000000000000000000000000000000000000000000000000000000000000000000000000000000000000000000000000000000000000000000000000000000000000000000000000000000000000000000000000000000000000000000000000000000000000000000000000"
  = Infinity false /\
  ParseInt.parseInt
    "-1000000000000000000000000000000000000000000000000000000000000000000000000000000000000000000000000000000000000000000000000000000000000000000000000000000000000000000000000000000000000000000000000000000000000000000000000000000000000000000000000000000000000000000000000000000000000000000000000000000000000000000000000000000"
  = Infinity true.
Proof. split; vm_compute; reflexivity. Qed.

(** X23.  [parseInt] reads the decimal numeral of a natural number [n]
    as the double nearest to [n]: as [n] itself when [n] is at most 2^53,
    and in general as the multiple [m * 2^e] of the spacing [2^e] of the
    doubles of that magnitude, with a mantissa [m] of at most 53 bits,
    that lies within half a spacing of [n], the even mantissa winning a
    tie; from 2^1024 on the result is [Infinity]. *)
Theorem parseInt_decimal (n : nat) :
  let z := Z.of_nat n in
  let e := Z.max 0 (Z.log2 z - 52) in
  ((z <= 9007199254740992)%Z ->
   ParseInt.parseInt (Str.of_nat n) = Finite (inject_Z z)) /\
  exists m,
    (0 <= m <= 9007199254740992)%Z /\
    (2 * Z.abs (z - m * 2 ^ e) <= 2 ^ e)%Z /\
    ((2 * Z.abs (z - m * 2 ^ e) = 2 ^ e)%Z -> Z.even m = true) /\
    ParseInt.parseInt (Str.of_nat n)
    = if (2 ^ 1024 <=? m * 2 ^ e)%Z then Infinity false
      else Finite (inject_Z (m * 2 ^ e)).
Proof.
  intros z e. rewrite parseInt_of_nat. split.
  - intros H. apply of_integer_exact. subst z. lia.
  - apply of_integer_rounds_natural.
Qed.

Lemma parseInt_decimal_witness :
  ParseInt.parseInt (Str.of_nat 10) = Finite (inject_Z 10).
Proof.
  apply (proj1 (parseInt_decimal 10)). vm_compute. discriminate.
Defined.

(** X24.  [GET /tables/{table}?limit=n&offset=m] with a valid table name
    and decimal numerals for [n] and [m], both at most 2^53, executes
    [SELECT * FROM {table} LIMIT ? OFFSET ?] bound to the numbers [n] and
    [m], zero included. *)
Theorem page_with_numbers (engine : Engine) (env : Env) (request : Request)
  (t : string) (n m : nat) :
  method request = "GET" ->
  pathname request = "/tables/" ++ t ->
  isValidTableName t = true ->
  searchParams_get "limit" (searchParams request) = Some (Str.of_nat n) ->
  searchParams_get "offset" (searchParams request) = Some (Str.of_nat m) ->
  (Z.of_nat n <= 9007199254740992)%Z ->
  (Z.of_nat m <= 9007199254740992)%Z ->
  snd (fetch engine env request)
  = [CallAll (JStr ("SELECT * FROM " ++ t ++ " LIMIT ? OFFSET ?"))
       [JNum (Finite (inject_Z (Z.of_nat n)));
        JNum (Finite (inject_Z (Z.of_nat m)))]].
Proof.
  intros Hm Hp Hv Hl Ho Bn Bm.
  assert (route_matches (method request) (pathname request) (ListRecords t))
    as Hr.
  { rewrite Hm, Hp. constructor. now apply valid_is_segment. }
  destruct (list_records_call engine env request t Hr Hv) as [Hcall _].
  rewrite Hcall, Hl, Ho. unfold page_bound.
  pose proof (of_nat_nonempty n) as Nn. pose proof (of_nat_nonempty m) as Nm.
  pose proof (parseInt_of_nat n) as Pn. pose proof (parseInt_of_nat m) as Pm.
  rewrite of_integer_exact in Pn, Pm by lia.
  destruct (Str.of_nat n); [now elim Nn|].
  destruct (Str.of_nat m); [now elim Nm|].
  now rewrite Pn, Pm.
Qed.

Lemma page_with_numbers_witness :
  snd (fetch Sample.engine Sample.env Cases.page_10_20)
  = [CallAll (JStr "SELECT * FROM users LIMIT ? OFFSET ?")
       [JNum (Finite (inject_Z 10)); JNum (Finite (inject_Z 20))]].
Proof.
  apply (page_with_numbers Sample.engine Sample.env Cases.page_10_20
           "users" 10 20); try reflexivity; vm_compute; discriminate.
Defined.

(** ** What a request cannot influence *)

(** X25.  [GET /tables] executes the fixed catalogue query, which
    selects from [sqlite_master] the names of the tables that start
    neither with [sqlite_] nor with [_cf_], with no bind arguments,
    whatever the query string, the headers and the body, and answers 200
    with the rows as [data], or 500 when the execution throws. *)
Theorem list_tables_end_to_end (engine : Engine) (env : Env)
  (request : Request) :
  method request = "GET" ->
  pathname request = "/tables" ->
  let sql :=
    JStr "SELECT name FROM sqlite_master WHERE type='table' AND name NOT LIKE 'sqlite_%' AND name NOT LIKE '_cf_%'" in
  fetch engine env request
  = answer_of (exec_all (DB env) sql []) (CallAll sql [])
      (fun res =>
         {| body := BodyJson {| success := true;
                                data := Some (JArr (results res));
                                error := None;
                                meta := None |};
            status := 200;
            response_headers :=
              [ ("Access-Control-Allow-Origin", "*");
                ("Access-Control-Allow-Methods",
                 "GET, POST, PUT, DELETE, OPTIONS");
                ("Access-Control-Allow-Headers", "Content-Type");
                ("Content-Type", "application/json") ] |}).
Proof.
  intros Hm Hp sql. subst sql. unfold fetch, routes. rewrite Hm, Hp.
  cbn [String.eqb andb].
  unfold_handlers. unfold answer_of, list_tables_sql. simpl.
  split_cases; reflexivity.
Qed.

Lemma list_tables_end_to_end_witness :
  fetch Sample.engine Sample.env Sample.anonymous_list
  = ({| body := BodyJson {| success := true;
                            data := Some (JArr []);
                            error := None;
                            meta := None |};
        status := 200;
        response_headers :=
          [ ("Access-Control-Allow-Origin", "*");
            ("Access-Control-Allow-Methods", "GET, POST, PUT, DELETE, OPTIONS");
            ("Access-Control-Allow-Headers", "Content-Type");
            ("Content-Type", "application/json") ] |},
     [CallAll
        (JStr "SELECT name FROM sqlite_master WHERE type='table' AND name NOT LIKE 'sqlite_%' AND name NOT LIKE '_cf_%'")
        []]).
Proof.
  apply (list_tables_end_to_end Sample.engine Sample.env Sample.anonymous_list);
    reflexivity.
Defined.

(** X26.  A request executes at most one statement. *)
Theorem one_statement_per_request (engine : Engine) (env : Env)
  (request : Request) :
  snd (fetch engine env request) = [] \/
  exists c, snd (fetch engine env request) = [c].
Proof.
  pose proof (at_most_one_call engine env request) as H.
  destruct (snd (fetch engine env request)) as [|c [|c' l]].
  - now left.
  - right. now exists c.
  - simpl in H. lia.
Qed.

(** X27.  The query string is read by the list route only: unless the
    request is a GET on a path of the form [/tables/{table}], the answer
    and the statement executed do not depend on it. *)
Theorem query_string_read_by_list_only (engine : Engine) (env : Env)
  (request : Request) (params : list (string * string)) :
  matches_collection (pathname request) && (method request =? "GET") = false ->
  fetch engine env (with_search request params) = fetch engine env request.
Proof.
  intros H. unfold fetch, routes. cbn [method pathname with_search].
  rewrite H. reflexivity.
Qed.

Lemma query_string_read_by_list_only_witness :
  fetch Sample.engine Sample.env
    (with_search Sample.get_one [("limit", "1")])
  = fetch Sample.engine Sample.env Sample.get_one.
Proof.
  apply (query_string_read_by_list_only Sample.engine Sample.env
           Sample.get_one).
  reflexivity.
Defined.
